(** * train-chat-app: the train detector and the chat server, embedded in Rocq

    The development follows these source units of the repository:

    - the hook [useTrainDetection] (line resolver [detectTrainLine], the
      geolocation [successCallback] with its speed computation, train test
      and alight logic, the console helper [testTrainExit] and the watch
      registry of the geolocation mock);
    - the screen [TrainDetectionScreen], whose effect on
      [trainStatus.isOnTrain] and [trainStatus.trainLine] joins the chat room,
      and its movement label and colour;
    - the server (the in-memory [users] and [rooms] maps, [createRoom],
      [deleteRoom], [broadcastToRoom], [getRoomUsers], the health statistics
      and the handlers that [io.on('connection')] registers);
    - the client's [SocketManager] (listener registry, room and message
      calls, user id);
    - the screens [ChatScreen] (online users, sending) and [NicknameScreen]
      (the nickname form), and the hook [useLocation].

    Coordinates and the table of the line resolver are IEEE 754 binary64
    values (the primitive floats of the kernel), and the resolver's arithmetic
    rounds as the standard prescribes. Speeds, distances in metres and times
    are modelled as exact rationals extended with [NaN] and the two
    infinities: their comparisons and the division [0/0] behave as in
    IEEE 754, their rounding is not modelled. *)

From Stdlib Require Import PrimFloat FloatOps FloatAxioms SpecFloat.
From Stdlib Require Import ZArith QArith Qround Qreals Reals Lra Lia List String.
From stdpp Require Import base gmap strings list fin_maps.
Import ListNotations.
Open Scope string_scope.

(** A decimal literal stands for the nearest binary64 value, as it does in
    JavaScript. *)
Set Warnings "-inexact-float".

(** ** JavaScript numbers *)

Module JS.

Inductive number : Type :=
| NaN
| PosInf
| NegInf
| Fin (q : Q).

Definition Qltb (a b : Q) : bool := negb (Qle_bool b a).

Definition sgn (q : Q) : Z := Z.sgn (Qnum q).

(** [a < b]; every comparison with [NaN] is false. *)
Definition lt (a b : number) : bool :=
  match a, b with
  | NaN, _ | _, NaN => false
  | NegInf, NegInf => false
  | NegInf, _ => true
  | _, NegInf => false
  | PosInf, _ => false
  | Fin _, PosInf => true
  | Fin x, Fin y => Qltb x y
  end.

(** [a <= b]. *)
Definition le (a b : number) : bool :=
  match a, b with
  | NaN, _ | _, NaN => false
  | NegInf, _ => true
  | _, NegInf => false
  | _, PosInf => true
  | PosInf, Fin _ => false
  | Fin x, Fin y => Qle_bool x y
  end.

Definition gt (a b : number) : bool := lt b a.
Definition ge (a b : number) : bool := le b a.

(** [a * b] for a finite positive constant [b] (the code multiplies by
    [3.6] and by [40] only). *)
Definition mul_pos (a : number) (b : Q) : number :=
  match a with
  | Fin x => Fin (x * b)
  | other => other
  end.

(** [a / b] for finite operands: [0/0] is [NaN], [x/0] is an infinity of
    the sign of [x]. *)
Definition div (a b : Q) : number :=
  if Qeq_bool b 0 then
    match sgn a with
    | Z0 => NaN
    | Zpos _ => PosInf
    | Zneg _ => NegInf
    end
  else Fin (a / b).

(** [Math.min(a, b)] for a finite [b]. *)
Definition min_fin (a : number) (b : Q) : number :=
  match a with
  | NaN => NaN
  | NegInf => NegInf
  | PosInf => Fin b
  | Fin x => if Qle_bool x b then Fin x else Fin b
  end.

(** Truthiness of a number: [0] and [NaN] are falsy. *)
Definition truthy (a : number) : bool :=
  match a with
  | NaN => false
  | Fin x => negb (Qeq_bool x 0)
  | _ => true
  end.

(** [a === b] on numbers; [NaN] equals nothing. *)
Definition eq (a b : number) : bool :=
  match a, b with
  | PosInf, PosInf | NegInf, NegInf => true
  | Fin x, Fin y => Qeq_bool x y
  | _, _ => false
  end.

End JS.

(** ** The functions of [Math] that the line resolver calls *)

Module Math.

(** [Math.pow(x, 2)], taken to be the correctly rounded product [x * x]:
    the value that the [pow] of fdlibm and of the engines derived from it
    returns for the exponent 2. *)
Definition pow_2 (x : float) : float := (x * x)%float.

(** [Math.sqrt(x)], correctly rounded. *)
Definition sqrt (x : float) : float := PrimFloat.sqrt x.

End Math.

(** ** The hook [useTrainDetection]: line resolver *)

Record Location : Type := mkLocation {
  lat : float;
  lng : float
}.

Record Line : Type := mkLine {
  name : string;
  line_lat : float;
  line_lng : float;
  radius : float
}.

(** The table [lines] of [detectTrainLine]. *)
Definition lines : list Line :=
  [ mkLine "JR山手線" 35.6762 139.6503 0.05;
    mkLine "JR中央線" 35.6581 139.7414 0.03;
    mkLine "JR京浜東北線" 35.7281 139.7186 0.03 ].

(** [const distance = Math.sqrt(Math.pow(location.lat - line.lat, 2) +
    Math.pow(location.lng - line.lng, 2))] *)
Definition distance_to (location : Location) (line : Line) : float :=
  Math.sqrt (Math.pow_2 (lat location - line_lat line)
             + Math.pow_2 (lng location - line_lng line))%float.

(** The test [distance < line.radius] of the loop body; a comparison with
    [NaN] is false. *)
Definition in_radius (location : Location) (line : Line) : bool :=
  PrimFloat.ltb (distance_to location line) (radius line).

(** The [for (const line of lines)] loop with its early [return]. *)
Fixpoint detectTrainLine_loop (location : Location) (table : list Line)
  : option string :=
  match table with
  | [] => None
  | line :: rest =>
      if in_radius location line then Some (name line)
      else detectTrainLine_loop location rest
  end.

Definition detectTrainLine (location : Location) : option string :=
  detectTrainLine_loop location lines.





(** The exact value of a finite binary64 number. *)
Definition rational (x : float) : Q :=
  match Prim2SF x with
  | S754_finite s m e =>
      let v := (inject_Z (Z.pos m) * (2 # 1) ^ e)%Q in
      if s then (- v)%Q else v
  | _ => 0%Q
  end.

(** ** The hook [useTrainDetection]: the geolocation callback *)

(** What one run of [successCallback] reads from its environment: the
    position, the clock ([currentTime = Date.now()], milliseconds), the value
    [calculateDistance(previousLocationRef.current, newLocation)] in metres
    (the haversine formula needs [sin], [cos] and [atan2]: the callback's
    model takes its result as read, [calculateDistance] below writes the
    formula over the reals and [distance_read] ties the two) and the
    [Math.random()] sample used by the speed adjustment. *)
Record Reading : Type := mkReading {
  coords : Location;
  coords_speed : option Q;
  currentTime : Z;
  distance : Q;
  random : Q
}.

(** The state the callback reads and writes: the React state cells
    [isOnTrain], [currentLine], [speed], [lowSpeedCount] and the three refs. *)
Record HookState : Type := mkHookState {
  isOnTrain : bool;
  currentLine : option string;
  speed : JS.number;
  lowSpeedCount : nat;
  previousTrainStatusRef : bool;
  previousLocationRef : option Location;
  lastUpdateRef : Z
}.

(** What the closure [successCallback] has captured when [watchPosition]
    registered it: the build flag [__DEV__ || NODE_ENV === 'development'], the
    value of the state cell [lowSpeedCount] in the render that created the
    closure (the callback reads this constant, its own
    [setLowSpeedCount(prev => prev + 1)] updates the cell, not the constant),
    and whether [onTrainExitRef.current] is set. *)
Record Closure : Type := mkClosure {
  isDevelopment : bool;
  captured_lowSpeedCount : nat;
  onTrainExit_set : bool
}.

(** The only effect besides state updates: the scheduled call of
    [onTrainExitRef.current]. *)
Inductive Effect : Type :=
| OnTrainExit.

(** [useState] and [useRef] initial values; [mountTime] is the [Date.now()] of
    the first render. *)
Definition initialState (mountTime : Z) : HookState :=
  {| isOnTrain := false;
     currentLine := None;
     speed := JS.Fin 0;
     lowSpeedCount := 0;
     previousTrainStatusRef := false;
     previousLocationRef := None;
     lastUpdateRef := mountTime |}.

(** [(currentTime - lastUpdateRef.current) / 1000] *)
Definition timeDiff (s : HookState) (r : Reading) : Q :=
  inject_Z (currentTime r - lastUpdateRef s) / 1000.

(** [(distance / timeDiff) * 3.6] *)
Definition rawSpeed (s : HookState) (r : Reading) : JS.number :=
  JS.mul_pos (JS.div (distance r) (timeDiff s r)) (36 # 10).

(** The branch [if (previousLocationRef.current && lastUpdateRef.current)]. *)
Definition hasPrevious (s : HookState) : bool :=
  match previousLocationRef s with
  | Some _ => negb (lastUpdateRef s =? 0)%Z
  | None => false
  end.

Definition calculatedSpeed (s : HookState) (r : Reading) : JS.number :=
  if hasPrevious s then
    let raw := rawSpeed s r in
    if JS.gt raw (JS.Fin 200) then JS.Fin (random r * 40 + 40)
    else if JS.lt raw (JS.Fin 5) && JS.gt (JS.Fin (timeDiff s r)) (JS.Fin 2)
      then raw
      else raw
  else
    match coords_speed r with
    | Some v =>
        if JS.truthy (JS.Fin v)
        then JS.min_fin (JS.mul_pos (JS.Fin v) (36 # 10)) 100
        else JS.Fin 0
    | None => JS.Fin 0
    end.

Definition hasMultipleUpdates (s : HookState) : bool :=
  match previousLocationRef s with Some _ => true | None => false end.

Definition isTrainSpeed (v : JS.number) : bool :=
  JS.ge v (JS.Fin 30) && JS.le v (JS.Fin 120).

Definition hasTrainLine (location : Location) : bool :=
  match detectTrainLine location with Some _ => true | None => false end.

Definition isTrainDetected (c : Closure) (s : HookState) (r : Reading) : bool :=
  let v := calculatedSpeed s r in
  if isDevelopment c then
    hasMultipleUpdates s && isTrainSpeed v && hasTrainLine (coords r)
  else
    JS.gt v (JS.Fin 20) && JS.lt v (JS.Fin 100).

(** [line || 'JR山手線'] *)
Definition line_or_default (line : option string) : string :=
  match line with
  | Some l => if String.eqb l "" then "JR山手線" else l
  | None => "JR山手線"
  end.

(** One run of [successCallback]: the new state and the effects it
    schedules. The state cells are written in the order of the source; the
    refs are written at the end. *)
Definition successCallback (c : Closure) (s : HookState) (r : Reading)
  : HookState * list Effect :=
  let v := calculatedSpeed s r in
  let detected := isTrainDetected c s r in
  let wasOnTrainPreviously := previousTrainStatusRef s in
  let '(onTrain, line, count, effects) :=
    if wasOnTrainPreviously && negb detected then
      if JS.lt v (JS.Fin 15) then
        if (2 <=? captured_lowSpeedCount c)%nat then
          (false, None, 0, if onTrainExit_set c then [OnTrainExit] else [])
        else
          (isOnTrain s, currentLine s, S (lowSpeedCount s), [])
      else
        (isOnTrain s, currentLine s, 0, [])
    else
      (detected,
       (if detected then Some (line_or_default (detectTrainLine (coords r)))
        else None),
       0, [])
  in
  ({| isOnTrain := onTrain;
      currentLine := line;
      speed := v;
      lowSpeedCount := count;
      previousTrainStatusRef := detected;
      previousLocationRef := Some (coords r);
      lastUpdateRef := currentTime r |},
   effects).

(** The callback as it would run if it read the live state cell instead of
    the captured constant; used to show that the alight branch is out of
    reach either way. *)
Definition successCallback_live (c : Closure) (s : HookState) (r : Reading)
  : HookState * list Effect :=
  successCallback
    {| isDevelopment := isDevelopment c;
       captured_lowSpeedCount := lowSpeedCount s;
       onTrainExit_set := onTrainExit_set c |} s r.

(** A stream of fixes: the states after each fix, and the effects of each. *)
Fixpoint run (c : Closure) (s : HookState) (rs : list Reading)
  : list (HookState * list Effect) :=
  match rs with
  | [] => []
  | r :: rest =>
      let out := successCallback c s r in
      out :: run c (fst out) rest
  end.

Fixpoint run_live (c : Closure) (s : HookState) (rs : list Reading)
  : list (HookState * list Effect) :=
  match rs with
  | [] => []
  | r :: rest =>
      let out := successCallback_live c s r in
      out :: run_live c (fst out) rest
  end.

Definition final (s : HookState) (trace : list (HookState * list Effect))
  : HookState :=
  List.last (map fst trace) s.

(** The counter is at most 1, and it is 1 only right after a fix that cleared
    [previousTrainStatusRef]. *)
Definition counter_invariant (s : HookState) : Prop :=
  (lowSpeedCount s <= 1)%nat ∧
  (lowSpeedCount s = 1%nat → previousTrainStatusRef s = false).

(** [calculateDistance] over the reals, as the source writes the haversine
    formula. [atan2] is [Math.atan2]. *)
Definition atan2 (y x : R) : R :=
  if Rlt_dec 0 x then atan (y / x)
  else if Rlt_dec x 0 then
    (if Rle_dec 0 y then atan (y / x) + PI else atan (y / x) - PI)%R
  else if Rlt_dec 0 y then (PI / 2)%R
  else if Rlt_dec y 0 then (- PI / 2)%R
  else 0%R.

Definition calculateDistance (loc1 loc2 : Location) : R :=
  let R0 := 6371000%R in
  let degrees (x : float) : R := Q2R (rational x) in
  let dLat := ((degrees (lat loc2) - degrees (lat loc1)) * PI / 180)%R in
  let dLng := ((degrees (lng loc2) - degrees (lng loc1)) * PI / 180)%R in
  let a :=
    (sin (dLat / 2) * sin (dLat / 2) +
     cos (degrees (lat loc1) * PI / 180) * cos (degrees (lat loc2) * PI / 180) *
     sin (dLng / 2) * sin (dLng / 2))%R in
  let c := (2 * atan2 (sqrt a) (sqrt (1 - a)))%R in
  (R0 * c)%R.

(** The reading carries the distance that [calculateDistance] returns for
    the previous and the new location. *)
Definition distance_read (s : HookState) (r : Reading) : Prop :=
  match previousLocationRef s with
  | Some previous => Q2R (distance r) = calculateDistance previous (coords r)
  | None => True
  end.

(** ** The screen [TrainDetectionScreen] *)

(** The dependency array [[trainStatus.isOnTrain, trainStatus.trainLine]]. *)
Definition deps (s : HookState) : bool * option string :=
  (isOnTrain s, currentLine s).

Definition deps_changed (before after : HookState) : bool :=
  negb (bool_decide (deps before = deps after)).

Definition truthy_string (o : option string) : bool :=
  match o with
  | Some l => negb (String.eqb l "")
  | None => false
  end.

Record ScreenState : Type := mkScreenState {
  hook : HookState;
  isConnecting : bool;
  nickname : string;
  replaced : bool
}.

Inductive ScreenEvent : Type :=
| ConnectToChat
| JoinRoom (roomId trainLine nick : string)
| JoinFailed
| TrainExit.

(** The effect body: [if (isOnTrain && trainLine && !isConnecting)
    connectToChat()], run after a render whose dependencies changed. *)
Definition effect_fires (connecting : bool) (before after : HookState) : bool :=
  deps_changed before after
  && isOnTrain after && truthy_string (currentLine after) && negb connecting.

(** [connectToChat]: returns early without a nickname; otherwise sets
    [isConnecting], emits the join (SocketManager.joinRoom throws when the
    socket is not connected, the [catch] then clears [isConnecting]) and on
    success replaces the screen, whose cleanup stops the detection. *)
Definition connectToChat (socket_connected : bool) (st : ScreenState)
  : ScreenState * list ScreenEvent :=
  match currentLine (hook st) with
  | Some line =>
      if String.eqb line "" || String.eqb (nickname st) "" then (st, [])
      else if socket_connected then
        ({| hook := hook st; isConnecting := true;
            nickname := nickname st; replaced := true |},
         [JoinRoom ("train_" ++ line) line (nickname st)])
      else
        ({| hook := hook st; isConnecting := false;
            nickname := nickname st; replaced := false |},
         [JoinFailed])
  | None => (st, [])
  end.

(** One fix delivered to a mounted screen: the hook's callback, the render
    (the state updates of one callback are taken as one render), the effect.
    After [navigation.replace] the cleanup clears the watch and no fix is
    processed. *)
Definition screen_step (c : Closure) (st : ScreenState)
    (input : Reading * bool) : ScreenState * list ScreenEvent :=
  let '(r, socket_connected) := input in
  if replaced st then (st, [])
  else
    let '(h, effects) := successCallback c (hook st) r in
    let exits := map (fun _ => TrainExit) effects in
    let st1 := {| hook := h; isConnecting := isConnecting st;
                  nickname := nickname st; replaced := false |} in
    if effect_fires (isConnecting st) (hook st) h then
      let '(st2, events) := connectToChat socket_connected st1 in
      (st2, (exits ++ ConnectToChat :: events)%list)
    else (st1, exits).

Fixpoint screen_run (c : Closure) (st : ScreenState)
    (inputs : list (Reading * bool)) : list (ScreenState * list ScreenEvent) :=
  match inputs with
  | [] => []
  | input :: rest =>
      let out := screen_step c st input in
      out :: screen_run c (fst out) rest
  end.

Definition is_boarding (e : ScreenEvent) : bool :=
  match e with ConnectToChat => true | _ => false end.

(** Number of times the screen called [connectToChat] along a trace. *)
Definition boardings (trace : list (ScreenState * list ScreenEvent)) : nat :=
  length (filter (fun e => is_boarding e = true) (concat (map snd trace))).

(** ** The server *)

Record User : Type := mkUser {
  user_id : string;
  socketId : string;
  user_nickname : string;
  user_roomId : option string;
  joinedAt : Z
}.

Record Message : Type := mkMessage {
  message_id : string;
  message_roomId : string;
  message_userId : string;
  message_nickname : string;
  text : string;
  timestamp : Z
}.

(** [users: Map<string, User>] of a room is kept as the list of its entries
    in insertion order, the order in which [forEach] and [values()] visit
    them; [users.size] is its length. *)
Record Room : Type := mkRoom {
  room_id : string;
  trainLine : string;
  room_users : list (string * User);
  messages : list Message;
  createdAt : Z
}.

(** The in-memory store: [const users = new Map()], [const rooms = new Map()]. *)
Record Store : Type := mkStore {
  users : gmap string User;
  rooms : gmap string Room
}.

Definition emptyStore : Store := {| users := ∅; rooms := ∅ |}.

(** [io.to(socketId).emit(event, data)] *)
Record Emission (A : Type) : Type := mkEmission {
  to : string;
  event : string;
  data : A
}.
Arguments mkEmission {A} _ _ _.
Arguments to {A} _.
Arguments event {A} _.
Arguments data {A} _.

(** [createRoom]; [now] is the [new Date()] of [createdAt]. *)
Definition createRoom (roomId line : string) (now : Z) (table : gmap string Room)
  : gmap string Room * Room :=
  let room := {| room_id := roomId; trainLine := line; room_users := [];
                 messages := []; createdAt := now |} in
  (<[roomId := room]> table, room).

(** [deleteRoom] *)
Definition deleteRoom (roomId : string) (table : gmap string Room)
  : gmap string Room :=
  match table !! roomId with
  | Some room =>
      if (length (room_users room) =? 0)%nat then delete roomId table
      else table
  | None => table
  end.

(** The body of the [forEach] of [broadcastToRoom]: one emission to the
    user's socket unless it is the excluded one. [excludeSocketId] is [None]
    when the argument is omitted. *)
Definition emit {A : Type} (ev : string) (d : A)
    (excludeSocketId : option string) (entry : string * User)
  : list (Emission A) :=
  let user := snd entry in
  if bool_decide (Some (socketId user) = excludeSocketId) then []
  else [mkEmission (socketId user) ev d].

(** [broadcastToRoom]: the emissions of the [forEach], in order. *)
Definition broadcastToRoom {A : Type} (roomId : string) (ev : string) (d : A)
    (excludeSocketId : option string) (table : gmap string Room)
  : list (Emission A) :=
  match table !! roomId with
  | None => []
  | Some room => flat_map (emit ev d excludeSocketId) (room_users room)
  end.

(** [getRoomUsers] *)
Definition getRoomUsers (roomId : string) (table : gmap string Room)
  : list (string * string) :=
  match table !! roomId with
  | None => []
  | Some room =>
      map (fun entry : string * User =>
             (user_id (snd entry), user_nickname (snd entry)))
          (room_users room)
  end.

(** A value that travels with an event (JSON). *)
Inductive Value : Type :=
| Null
| Boolean (b : bool)
| Number (q : Q)
| Text (s : string)
| Object (json : string).

(** Truthiness of such a value: [null], [false], [0] and the empty string
    are falsy; objects and arrays are truthy. *)
Definition truthy_value (v : Value) : bool :=
  match v with
  | Null => false
  | Boolean b => b
  | Number q => negb (Qeq_bool q 0)
  | Text s => negb (String.eqb s "")
  | Object _ => true
  end.

(** An event a connected socket delivers to the server: its name (the
    names of [SOCKET_EVENTS], or [ping]), the values the client passed to
    [emit], and whether it passed an acknowledgement callback after them. *)
Record ClientEvent : Type := mkClientEvent {
  from : string;
  event_name : string;
  payload : list Value;
  has_callback : bool
}.

(** What a listener is called with: the values of the event in order,
    followed by the acknowledgement function if the client passed one. *)
Inductive Argument : Type :=
| Data (v : Value)
| Acknowledge.

Definition listener_arguments (e : ClientEvent) : list Argument :=
  (map Data (payload e) ++ (if has_callback e then [Acknowledge] else []))%list.

(** What the server does that a client or the operator can observe: an
    emission to a socket, the answer passed to an acknowledgement function,
    and an exception that leaves a listener (nothing catches it: the process
    ends). *)
Inductive Output : Type :=
| Emit (e : Emission string)
| Ack (socket : string) (reply : string)
| Uncaught (error : string).

(** The listener [(callback) => { if (callback) callback({ message: 'pong' }) }]:
    its parameter is the first argument, whatever that is. Calling a truthy
    value that is not a function throws. *)
Definition on_ping (socket : string) (arguments : list Argument)
  : list Output :=
  match arguments with
  | [] => []
  | Acknowledge :: _ => [Ack socket "pong"]
  | Data v :: _ =>
      if truthy_value v then [Uncaught "TypeError: callback is not a function"]
      else []
  end.

(** The listeners that [io.on('connection')] registers on a socket:
    [disconnect] (a log line) and [ping]. An event without a listener is
    dropped. *)
Definition on_event (e : ClientEvent) (st : Store) : Store * list Output :=
  if String.eqb (event_name e) "disconnect" then (st, [])
  else if String.eqb (event_name e) "ping" then
    (st, on_ping (from e) (listener_arguments e))
  else (st, []).

(** [io.on('connection')]: greets the socket. *)
Definition on_connection (socket : string) (st : Store) : Store * list Output :=
  (st, [Emit (mkEmission socket "connected"
                "Socket.IO connection successful")]).

(** Whether an exception left a listener. *)
Definition is_uncaught (o : Output) : bool :=
  match o with
  | Uncaught _ => true
  | _ => false
  end.

Definition crashed (outs : list Output) : bool := existsb is_uncaught outs.

(** The events of sockets that are connected already, handled in order
    until an exception ends the process. *)
Fixpoint serve (st : Store) (events : list ClientEvent)
  : Store * list Output :=
  match events with
  | [] => (st, [])
  | e :: rest =>
      let '(st1, out1) := on_event e st in
      if crashed out1 then (st1, out1)
      else
        let '(st2, out2) := serve st1 rest in
        (st2, (out1 ++ out2)%list)
  end.

(** What reaches the server: a socket connects, or a connected socket
    delivers an event. *)
Inductive Inbound : Type :=
| Connection (socket : string)
| Event (e : ClientEvent).

Definition on_inbound (i : Inbound) (st : Store) : Store * list Output :=
  match i with
  | Connection socket => on_connection socket st
  | Event e => on_event e st
  end.

(** The server from its start: connections and events handled in order until
    an exception ends the process. *)
Fixpoint server (st : Store) (traffic : list Inbound)
  : Store * list Output :=
  match traffic with
  | [] => (st, [])
  | i :: rest =>
      let '(st1, out1) := on_inbound i st in
      if crashed out1 then (st1, out1)
      else
        let '(st2, out2) := server st1 rest in
        (st2, (out1 ++ out2)%list)
  end.


(** The [receiveMessage] emissions addressed to a socket. *)
Definition is_receiveMessage (socket : string) (o : Output) : bool :=
  match o with
  | Emit e => String.eqb (to e) socket && String.eqb (event e) "receiveMessage"
  | Ack _ _ => false
  | Uncaught _ => false
  end.

Definition received (socket : string) (outs : list Output) : nat :=
  length (filter (fun o => is_receiveMessage socket o = true) outs).

(** The emissions of a broadcast addressed to a socket. *)
Definition deliveries {A : Type} (socket : string) (es : list (Emission A))
  : nat :=
  length (filter (fun e => to e = socket) es).

(** ** Scenarios

    Concrete closures, fixes and stores on which the definitions above are
    evaluated. The [distance] of a fix is the value the callback computed for
    it; the speeds named in the comments follow from it and the clock. *)

Module Scenario.

(** The closure the screen registers: created in the first render
    ([lowSpeedCount] is 0), with the exit callback set. *)
Definition development : Closure :=
  {| isDevelopment := true; captured_lowSpeedCount := 0;
     onTrainExit_set := true |}.

Definition production : Closure :=
  {| isDevelopment := false; captured_lowSpeedCount := 0;
     onTrainExit_set := true |}.

Definition mountTime : Z := 1700000000000.

(** A point inside the radius of the first line, [k] steps north of its
    reference point. *)
Definition north (k : Z) : Location :=
  {| lat := Nat.iter (Z.to_nat k) (fun x => x + 0.0003)%float 35.6762%float;
     lng := 139.6503 |}.

(** The [k]-th fix of a ride sampled every 3 seconds, [metres] away from
    the previous one. *)
Definition sample (k : Z) (metres : Q) : Reading :=
  {| coords := north k; coords_speed := None;
     currentTime := mountTime + 3000 * k; distance := metres;
     random := 0 |}.

(** The first fix reports [25/9] m/s, that is 10 km/h. *)
Definition first_fix : Reading :=
  {| coords := north 1; coords_speed := Some (25 # 9);
     currentTime := mountTime + 3000; distance := 0; random := 0 |}.

(** Fixes producing the speeds 10, 40, 50, 45, 8, 8, 8 km/h. *)
Definition ride : list Reading :=
  [ first_fix; sample 2 (100 # 3); sample 3 (125 # 3); sample 4 (75 # 2);
    sample 5 (20 # 3); sample 6 (20 # 3); sample 7 (20 # 3) ].

(** The state after the first fix (10 km/h). *)
Definition after_first_fix : HookState :=
  fst (successCallback development (initialState mountTime) first_fix).

(** 500 m in 9 s: a raw speed of exactly 200 km/h. *)
Definition jump_200 : Reading :=
  {| coords := north 2; coords_speed := None;
     currentTime := mountTime + 12000; distance := 500; random := 1 # 2 |}.

(** 1 km in 9 s: a raw speed of 400 km/h. *)
Definition jump_400 : Reading :=
  {| coords := north 2; coords_speed := None;
     currentTime := mountTime + 12000; distance := 1000; random := 1 # 2 |}.

(** A first fix far from every line that reports 10 m/s (36 km/h). *)
Definition far_first_fix : Reading :=
  {| coords := {| lat := 34.0; lng := 135.0 |}; coords_speed := Some (10 # 1);
     currentTime := mountTime + 3000; distance := 0; random := 0 |}.

(** The same position at the same millisecond as the previous fix. *)
Definition repeated_fix : Reading :=
  {| coords := north 2; coords_speed := None;
     currentTime := mountTime + 6000; distance := 0; random := 0 |}.

(** The same position at the same millisecond as the fifth fix of the
    ride. *)
Definition repeated_low_fix : Reading :=
  {| coords := north 5; coords_speed := None;
     currentTime := mountTime + 15000; distance := 0; random := 0 |}.

(** The state after the first sub-15 sample of the ride. *)
Definition after_low_sample : HookState :=
  final (initialState mountTime)
    (run development (initialState mountTime) (take 5 ride)).

(** The state after the fourth fix of the ride (45 km/h). *)
Definition after_fourth_fix : HookState :=
  final (initialState mountTime)
    (run development (initialState mountTime) (take 4 ride)).

Definition on_train : HookState :=
  final (initialState mountTime)
    (run development (initialState mountTime) [first_fix; sample 2 (100 # 3)]).

(** The screen at mount, with a stored nickname. *)
Definition screen : ScreenState :=
  {| hook := initialState mountTime; isConnecting := false;
     nickname := "taro"; replaced := false |}.

(** A fix at the reference point of the second line, ten minutes and
    8.5 km after the second fix of the ride (51 km/h). *)
Definition other_line_fix : Reading :=
  {| coords := {| lat := 35.6581; lng := 139.7414 |};
     coords_speed := None; currentTime := mountTime + 606000;
     distance := 8500; random := 0 |}.

(** The socket is not yet connected when the rider boards, so the join
    fails; the ride then reaches the second line, the socket connected. *)
Definition ride_across_lines : list (Reading * bool) :=
  [ (first_fix, false); (sample 2 (100 # 3), false); (other_line_fix, true) ].

(** The same line throughout, the join failing at boarding. *)
Definition ride_on_one_line : list (Reading * bool) :=
  [ (first_fix, false); (sample 2 (100 # 3), false); (sample 3 (125 # 3), true);
    (sample 4 (75 # 2), true) ].

Definition alice : User :=
  {| user_id := "alice"; socketId := "socket-a"; user_nickname := "Alice";
     user_roomId := Some "train_JR"; joinedAt := 0 |}.

Definition bob : User :=
  {| user_id := "bob"; socketId := "socket-b"; user_nickname := "Bob";
     user_roomId := Some "train_JR"; joinedAt := 1 |}.

Definition room (members : list (string * User)) : Room :=
  {| room_id := "train_JR"; trainLine := "JR"; room_users := members;
     messages := []; createdAt := 0 |}.

(** A store in which alice and bob are members of one room. *)
Definition two_members : Store :=
  {| users := <["alice" := alice]> (<["bob" := bob]> ∅);
     rooms := <["train_JR" := room [("alice", alice); ("bob", bob)]]> ∅ |}.

(** A table holding a room that nobody was added to. *)
Definition created_only : gmap string Room :=
  fst (createRoom "train_JR" "JR" 0 ∅).

(** An event of the client's [SocketManager]: one object, no
    acknowledgement callback. *)
Definition client (socket event_name : string) : ClientEvent :=
  {| from := socket; event_name := event_name;
     payload := [Object "roomId: train_JR"]; has_callback := false |}.

(** A [ping] as [socket.emit('ping', callback)] sends it. *)
Definition ping (socket : string) : ClientEvent :=
  {| from := socket; event_name := "ping"; payload := [];
     has_callback := true |}.

(** A [ping] that carries a value before the callback, as
    [socket.emit('ping', { t: 1 }, callback)] sends it. *)
Definition ping_with_data (socket : string) : ClientEvent :=
  {| from := socket; event_name := "ping"; payload := [Object "t: 1"];
     has_callback := true |}.

End Scenario.

(** ** The server: what the health endpoint reports *)

(** The [stats] of [GET /health]: [users.size] and [rooms.size]. *)
Definition health_stats (st : Store) : nat * nat :=
  (size (users st), size (rooms st)).

(** A [ping] whose first value is truthy: the listener calls that value. *)
Definition throws (e : ClientEvent) : bool :=
  String.eqb (event_name e) "ping" &&
  match payload e with
  | v :: _ => truthy_value v
  | [] => false
  end.

(** The acknowledgement a [ping] gets: only when the callback is its first
    argument. *)
Definition pong (e : ClientEvent) : list Output :=
  if String.eqb (event_name e) "ping" && has_callback e
  then match payload e with
       | [] => [Ack (from e) "pong"]
       | _ :: _ => []
       end
  else [].

(** What the server sends in answer to a connection or an event that does
    not throw. *)
Definition answer (i : Inbound) : list Output :=
  match i with
  | Connection socket =>
      [Emit (mkEmission socket "connected" "Socket.IO connection successful")]
  | Event e => pong e
  end.

Definition inbound_throws (i : Inbound) : bool :=
  match i with
  | Connection _ => false
  | Event e => throws e
  end.

(** ** JavaScript strings as UTF-16 code units, and [String.prototype.trim] *)

Module Str.

(** ECMAScript [WhiteSpace] and [LineTerminator] code units: TAB, LF, VT, FF,
    CR, SP, NBSP, U+1680, U+2000..U+200A, LS, PS, U+202F, U+205F, U+3000 and
    the byte order mark. *)
Definition isWhiteSpace (c : N) : bool :=
  ((9 <=? c) && (c <=? 13) || (c =? 32) || (c =? 160) || (c =? 5760)
   || (8192 <=? c) && (c <=? 8202) || (c =? 8232) || (c =? 8233)
   || (c =? 8239) || (c =? 8287) || (c =? 12288) || (c =? 65279))%N.

Fixpoint trimStart (s : list N) : list N :=
  match s with
  | [] => []
  | c :: rest => if isWhiteSpace c then trimStart rest else s
  end.

Definition trimEnd (s : list N) : list N := rev (trimStart (rev s)).

Definition trim (s : list N) : list N := trimEnd (trimStart s).

End Str.

(** ** The screen [NicknameScreen] *)

Module NicknameScreen.

Inductive Outcome : Type :=
| AlertEmpty
| AlertTooLong
| AlertSaveFailed
| SavedAndNavigated (stored : list N).

(** [handleSubmit]; [setItem_succeeds] tells whether
    [AsyncStorage.setItem('nickname', trimmed)] resolves. *)
Definition handleSubmit (nickname : list N) (setItem_succeeds : bool)
  : Outcome :=
  let trimmed := Str.trim nickname in
  if (length trimmed =? 0)%nat then AlertEmpty
  else if (20 <? length trimmed)%nat then AlertTooLong
  else if setItem_succeeds then SavedAndNavigated trimmed
  else AlertSaveFailed.

(** [isValid], which enables the button. *)
Definition isValid (nickname : list N) : bool :=
  (0 <? length (Str.trim nickname))%nat
  && (length (Str.trim nickname) <=? 20)%nat.

End NicknameScreen.

(** ** The client's [SocketManager] *)

Module SocketManager.

(** A registered callback. Functions are compared by identity: [Plain f] is
    the caller's function [f]; [IfConnected f] and [IfDisconnected f] are the
    wrappers that [onConnect] and [onDisconnect] build around [f], which no
    caller holds a reference to. *)
Inductive Listener : Type :=
| Plain (f : nat)
| IfConnected (f : nat)
| IfDisconnected (f : nat).

(** The argument of an event: the boolean of [connected], or an object. *)
Inductive Data : Type :=
| Flag (b : bool)
| Object (json : string).

Definition truthy (d : Data) : bool :=
  match d with Flag b => b | Object _ => true end.

(** A call of a caller's function, with the argument it receives. *)
Inductive Call : Type :=
| Invoke (f : nat) (argument : option Data).

(** What the manager sends to the server with [socket.emit]. *)
Inductive Outgoing : Type :=
| JoinRoom (roomId trainId trainLine nickname : string)
| LeaveRoom (roomId : string)
| SendMessage (roomId : string) (message : list N) (nickname : string)
              (timestamp : Z)
| UpdateNickname (nickname : string).

Inductive Result (A : Type) : Type :=
| Ok (value : A)
| Throw (message : string).
Arguments Ok {A} _.
Arguments Throw {A} _.

(** The fields of the manager; [socket] is [None] for [null] and otherwise
    holds the socket's [connected] flag. *)
Record t : Type := mk {
  socket : option bool;
  listeners : gmap string (list Listener);
  currentRoomId : option string;
  currentUserId : option string
}.

Definition initial : t :=
  {| socket := None; listeners := ∅; currentRoomId := None;
     currentUserId := None |}.

Definition isConnected (m : t) : bool :=
  match socket m with Some connected => connected | None => false end.

Definition getCurrentRoomId (m : t) : option string := currentRoomId m.

Definition with_listeners (m : t) (l : gmap string (list Listener)) : t :=
  {| socket := socket m; listeners := l; currentRoomId := currentRoomId m;
     currentUserId := currentUserId m |}.

Definition with_room (m : t) (room : option string) : t :=
  {| socket := socket m; listeners := listeners m; currentRoomId := room;
     currentUserId := currentUserId m |}.

(** [on] *)
Definition on (event : string) (callback : Listener) (m : t) : t :=
  let callbacks := default [] (listeners m !! event) in
  with_listeners m (<[event := (callbacks ++ [callback])%list]> (listeners m)).

(** [callbacks.indexOf(callback)] for a caller's function. *)
Fixpoint indexOf (f : nat) (callbacks : list Listener) : option nat :=
  match callbacks with
  | [] => None
  | Plain g :: rest =>
      if (f =? g)%nat then Some 0%nat else S <$> indexOf f rest
  | _ :: rest => S <$> indexOf f rest
  end.

(** [off] *)
Definition off (event : string) (f : nat) (m : t) : t :=
  match listeners m !! event with
  | Some callbacks =>
      match indexOf f callbacks with
      | Some index =>
          with_listeners m (<[event := delete index callbacks]> (listeners m))
      | None => m
      end
  | None => m
  end.

Definition invoke (d : Data) (callback : Listener) : list Call :=
  match callback with
  | Plain f => [Invoke f (Some d)]
  | IfConnected f => if truthy d then [Invoke f None] else []
  | IfDisconnected f => if truthy d then [] else [Invoke f None]
  end.

(** The private [emit]: the calls it makes, in order. *)
Definition emit (event : string) (d : Data) (m : t) : list Call :=
  match listeners m !! event with
  | Some callbacks => flat_map (invoke d) callbacks
  | None => []
  end.



Definition onMessage (f : nat) (m : t) : t := on "message" (Plain f) m.
Definition onUserJoined (f : nat) (m : t) : t := on "userJoined" (Plain f) m.
Definition onUserLeft (f : nat) (m : t) : t := on "userLeft" (Plain f) m.
Definition onRoomUpdate (f : nat) (m : t) : t := on "roomUpdate" (Plain f) m.
Definition onForceLeave (f : nat) (m : t) : t := on "forceLeave" (Plain f) m.

(** The listeners that [setupEventHandlers] puts on the socket: the local
    event each socket event is forwarded to. *)
Definition forwarded (socket_event : string) (d : Data)
  : option (string * Data) :=
  if String.eqb socket_event "connect" then Some ("connected", Flag true)
  else if String.eqb socket_event "disconnect"
    then Some ("connected", Flag false)
  else if String.eqb socket_event "receiveMessage" then Some ("message", d)
  else if String.eqb socket_event "userJoined" then Some ("userJoined", d)
  else if String.eqb socket_event "userLeft" then Some ("userLeft", d)
  else if String.eqb socket_event "roomUpdate" then Some ("roomUpdate", d)
  else if String.eqb socket_event "forceLeave" then Some ("forceLeave", d)
  else if String.eqb socket_event "error" then Some ("error", d)
  else None.

(** An event arriving on the socket. *)
Definition on_socket_event (socket_event : string) (d : Data) (m : t)
  : list Call :=
  match forwarded socket_event d with
  | Some (event, argument) => emit event argument m
  | None => []
  end.

(** [disconnect]; the boolean tells whether [socket.disconnect()] ran. *)
Definition disconnect (m : t) : t * bool :=
  ({| socket := None; listeners := ∅; currentRoomId := None;
      currentUserId := currentUserId m |},
   match socket m with Some _ => true | None => false end).

(** [joinRoom] *)
Definition joinRoom (roomId trainLine nickname : string) (m : t)
  : Result (t * list Outgoing) :=
  if isConnected m then
    Ok (with_room m (Some roomId),
        [JoinRoom roomId roomId trainLine nickname])
  else Throw "Socket not connected".

Definition nonempty (o : option string) : option string :=
  match o with
  | Some s => if String.eqb s "" then None else Some s
  | None => None
  end.

(** [leaveRoom]; [roomId || this.currentRoomId] takes the first non-empty
    string. *)
Definition leaveRoom (roomId : option string) (m : t) : t * list Outgoing :=
  if isConnected m then
    match nonempty roomId with
    | Some target => (with_room m None, [LeaveRoom target])
    | None =>
        match nonempty (currentRoomId m) with
        | Some target => (with_room m None, [LeaveRoom target])
        | None => (m, [])
        end
    end
  else (m, []).

(** [sendMessage]; the [id] of [messageData] is not sent. *)
Definition sendMessage (id : string) (text : list N) (nickname : string)
    (timestamp : Z) (roomId : string) (m : t) : Result (list Outgoing) :=
  if isConnected m then Ok [SendMessage roomId text nickname timestamp]
  else Throw "Socket not connected".

Definition updateNickname (nickname : string) (m : t) : list Outgoing :=
  if isConnected m then [UpdateNickname nickname] else [].

Definition stored (key generated : string) (storage : gmap string string)
  : string * gmap string string :=
  match storage !! key with
  | Some value =>
      if String.eqb value "" then (generated, <[key := generated]> storage)
      else (value, storage)
  | None => (generated, <[key := generated]> storage)
  end.

(** [getUserId] over [AsyncStorage]; [user_suffix] and [session_suffix] are
    what the clock and [Math.random()] contribute to a generated id. *)
Definition getUserId (development : bool) (user_suffix session_suffix : string)
    (storage : gmap string string) : string * gmap string string :=
  let '(userId, storage1) :=
    stored "userId" ("user_" ++ user_suffix) storage in
  if development then
    let '(sessionId, storage2) :=
      stored "sessionId" ("session_" ++ session_suffix) storage1 in
    (userId ++ "_" ++ sessionId, storage2)
  else (userId, storage1).

(** [connect]: nothing when already connected; otherwise the user id is
    read or created and a new socket, not yet connected, replaces the
    field. *)
Definition connect (development : bool) (user_suffix session_suffix : string)
    (storage : gmap string string) (m : t) : t * gmap string string :=
  if isConnected m then (m, storage)
  else
    let '(userId, storage1) :=
      getUserId development user_suffix session_suffix storage in
    ({| socket := Some false; listeners := listeners m;
        currentRoomId := currentRoomId m; currentUserId := Some userId |},
     storage1).

End SocketManager.

(** ** The screen [ChatScreen] *)

Module ChatScreen.

Record Message : Type := mkMessage {
  id : string;
  text : list N;
  userId : string;
  nickname : string;
  timestamp : Z;
  isOwn : bool;
  isSystem : bool
}.

(** The state cells [messages], [inputText], [isConnected] and
    [onlineUsers] (pairs of [id] and [nickname]). *)
Record t : Type := mk {
  messages : list Message;
  inputText : list N;
  isConnected : bool;
  onlineUsers : list (string * string)
}.

(** The updater of [onlineUsers] in the [userJoined] listener. *)
Definition userJoined (userId nickname : string)
    (prev : list (string * string)) : list (string * string) :=
  match List.find (fun user => String.eqb (fst user) userId) prev with
  | Some _ => prev
  | None => (prev ++ [(userId, nickname)])%list
  end.

(** The updater of [onlineUsers] in the [userLeft] listener. *)
Definition userLeft (userId : string) (prev : list (string * string))
  : list (string * string) :=
  List.filter (fun user => negb (String.eqb (fst user) userId)) prev.

(** [data.users || []] of the [roomUpdate] listener. *)
Definition roomUpdate (users : option (list (string * string)))
  : list (string * string) :=
  default [] users.

Inductive Presence : Type :=
| Joined (userId nickname : string)
| Left (userId : string).

Definition presence (prev : list (string * string)) (e : Presence)
  : list (string * string) :=
  match e with
  | Joined userId nickname => userJoined userId nickname prev
  | Left userId => userLeft userId prev
  end.

(** The chips of the header: [onlineUsers.slice(0, 3)] and the [+n] label,
    shown when more than three users are online. *)
Definition chips (users : list (string * string))
  : list (string * string) * option nat :=
  (take 3 users,
   if (3 <? length users)%nat then Some (length users - 3)%nat else None).

(** [sendMessage]; [roomId] and [nick] are the route parameter and the
    stored nickname, [now] and [now_id] the clock and its decimal rendering.
    The own message is appended before [SocketManager.sendMessage] runs. *)
Definition sendMessage (roomId nick : string) (now : Z) (now_id : string)
    (st : t) (m : SocketManager.t)
  : t * SocketManager.Result (list SocketManager.Outgoing) :=
  let trimmed := Str.trim (inputText st) in
  if (length trimmed =? 0)%nat || negb (isConnected st) then
    (st, SocketManager.Ok [])
  else
    let actualRoomId :=
      default roomId
        (SocketManager.nonempty (SocketManager.getCurrentRoomId m)) in
    let ownMessage :=
      {| id := now_id; text := trimmed; userId := "self"; nickname := nick;
         timestamp := now; isOwn := true; isSystem := false |} in
    ({| messages := (messages st ++ [ownMessage])%list; inputText := [];
        isConnected := isConnected st; onlineUsers := onlineUsers st |},
     SocketManager.sendMessage now_id trimmed nick now actualRoomId m).

(** [handleExit], once confirmed: [leaveRoom(roomId)], then [disconnect()]. *)
Definition handleExit (roomId : string) (m : SocketManager.t)
  : SocketManager.t * list SocketManager.Outgoing :=
  let '(m1, sent) := SocketManager.leaveRoom (Some roomId) m in
  (fst (SocketManager.disconnect m1), sent).

End ChatScreen.

(** ** The hook's console helper [testTrainExit] *)

Module DevTools.

(** The assignments before the interval starts. *)
Definition testTrainExit_start (s : HookState) : HookState :=
  {| isOnTrain := true; currentLine := Some "JR山手線"; speed := JS.Fin 60;
     lowSpeedCount := lowSpeedCount s; previousTrainStatusRef := true;
     previousLocationRef := previousLocationRef s;
     lastUpdateRef := lastUpdateRef s |}.

(** One run of the interval callback with the incremented [count] and the
    [Math.random()] sample; the boolean tells whether the interval was
    cleared. *)
Definition testTrainExit_tick (onTrainExit : bool) (count : nat) (sample : Q)
    (s : HookState) : HookState * list Effect * bool :=
  let walkingSpeed := (sample * 8 + 3)%Q in
  let cleared := (3 <=? count)%nat in
  if previousTrainStatusRef s && JS.lt (JS.Fin walkingSpeed) (JS.Fin 15) then
    if cleared then
      ({| isOnTrain := false; currentLine := None;
          speed := JS.Fin walkingSpeed; lowSpeedCount := 0;
          previousTrainStatusRef := previousTrainStatusRef s;
          previousLocationRef := previousLocationRef s;
          lastUpdateRef := lastUpdateRef s |},
       if onTrainExit then [OnTrainExit] else [], true)
    else
      ({| isOnTrain := isOnTrain s; currentLine := currentLine s;
          speed := JS.Fin walkingSpeed; lowSpeedCount := (count - 1)%nat;
          previousTrainStatusRef := previousTrainStatusRef s;
          previousLocationRef := previousLocationRef s;
          lastUpdateRef := lastUpdateRef s |}, [], false)
  else (s, [], cleared).

(** The interval: ticks with [count] = 1, 2, ... until it is cleared. *)
Fixpoint testTrainExit_ticks (onTrainExit : bool) (count : nat)
    (samples : list Q) (s : HookState) : list (HookState * list Effect) :=
  match samples with
  | [] => []
  | sample :: rest =>
      let '(s1, effects, cleared) :=
        testTrainExit_tick onTrainExit (S count) sample s in
      (s1, effects)
      :: (if cleared then []
          else testTrainExit_ticks onTrainExit (S count) rest s1)
  end.

Definition testTrainExit (onTrainExit : bool) (samples : list Q)
    (s : HookState) : list (HookState * list Effect) :=
  testTrainExit_ticks onTrainExit 0 samples (testTrainExit_start s).

End DevTools.

(** ** What [TrainDetectionScreen] displays *)

Module Display.

(** [Math.round]: the nearest integer, halves rounded up. *)
Definition Math_round (v : JS.number) : JS.number :=
  match v with
  | JS.Fin q => JS.Fin (inject_Z (Qfloor (q + (1 # 2))))
  | other => other
  end.

(** [trainStatus.speed] as the hook returns it. *)
Definition trainStatus_speed (s : HookState) : JS.number :=
  Math_round (speed s).

Inductive MovementStatus : Type :=
| TrainMoving
| VehicleMoving
| WalkingMoving
| Stopped.

Definition getMovementStatus (v : JS.number) : MovementStatus :=
  if JS.ge v (JS.Fin 30) then TrainMoving
  else if JS.ge v (JS.Fin 15) then VehicleMoving
  else if JS.ge v (JS.Fin 5) then WalkingMoving
  else Stopped.

Inductive SpeedColor : Type :=
| Success
| Orange
| Secondary.

Definition getSpeedColor (v : JS.number) : SpeedColor :=
  if JS.ge v (JS.Fin 30) then Success
  else if JS.ge v (JS.Fin 15) then Orange
  else Secondary.

(** The room that [connectToChat] joins for a line. *)
Definition baseRoomId (line : string) : string := "train_" ++ line.

End Display.

(** ** The hook [useLocation] *)

Module UseLocation.

Record LocationData : Type := mkLocationData {
  latitude : Q;
  longitude : Q;
  accuracy : Q;
  timestamp : Z
}.

(** The state cells [location], [error] and [loading]. *)
Record t : Type := mk {
  location : option LocationData;
  error : option string;
  loading : bool
}.

Definition initial : t :=
  {| location := None; error := None; loading := true |}.

(** What [getCurrentPositionAsync] resolves to; [coords.accuracy] may be
    [null]. *)
Record Position : Type := mkPosition {
  coords_latitude : Q;
  coords_longitude : Q;
  coords_accuracy : option Q;
  position_timestamp : Z
}.

(** An awaited call either resolves or rejects. *)
Inductive Awaited (A : Type) : Type :=
| Resolves (value : A)
| Rejects.
Arguments Resolves {A} _.
Arguments Rejects {A}.

(** The effect: [permission] is the awaited status compared with
    ['granted'], [position] the awaited position, [mounted] the flag when the
    awaits are over. *)
Definition effect (enabled : bool) (permission : Awaited bool)
    (position : Awaited Position) (mounted : bool) (st : t) : t :=
  if negb enabled then
    {| location := location st; error := error st; loading := false |}
  else
    match permission with
    | Rejects =>
        if mounted then
          {| location := location st;
             error := Some "位置情報の取得に失敗しました"; loading := false |}
        else st
    | Resolves false =>
        {| location := location st;
           error := Some "位置情報の許可が拒否されました"; loading := false |}
    | Resolves true =>
        match position with
        | Rejects =>
            if mounted then
              {| location := location st;
                 error := Some "位置情報の取得に失敗しました";
                 loading := false |}
            else st
        | Resolves p =>
            if mounted then
              {| location :=
                   Some {| latitude := coords_latitude p;
                           longitude := coords_longitude p;
                           accuracy := default 0%Q (coords_accuracy p);
                           timestamp := position_timestamp p |};
                 error := None; loading := false |}
            else st
        end
    end.

End UseLocation.

(** ** The geolocation mock: its watch registry *)

Module Mock.

(** [watchCallbacks] (the success callbacks, by identity) and the counter
    [watchId]. *)
Record t : Type := mk {
  watchCallbacks : list nat;
  watchId : nat
}.

Definition initial : t := {| watchCallbacks := []; watchId := 0 |}.

(** [mockWatchPosition]: the id it returns and the registry after it. *)
Definition mockWatchPosition (success : nat) (st : t) : nat * t :=
  (S (watchId st),
   {| watchCallbacks := (watchCallbacks st ++ [success])%list;
      watchId := S (watchId st) |}).

(** [array.filter((_, index) => keep(index))], from position [index]. *)
Fixpoint filter_index {A : Type} (keep : nat → bool) (index : nat)
    (l : list A) : list A :=
  match l with
  | [] => []
  | x :: rest =>
      if keep index then x :: filter_index keep (S index) rest
      else filter_index keep (S index) rest
  end.

(** [mockClearWatch]: keeps the callbacks whose index is not [watchId - 1]. *)
Definition mockClearWatch (id : nat) (st : t) : t :=
  {| watchCallbacks :=
       filter_index
         (fun index => negb (Z.of_nat index =? Z.of_nat id - 1)%Z) 0
         (watchCallbacks st);
     watchId := watchId st |}.

(** Registering the callbacks of a list, one watch each. *)
Definition watch_all (callbacks : list nat) (st : t) : t :=
  fold_left (fun acc success => snd (mockWatchPosition success acc))
            callbacks st.

End Mock.

(** * Properties *)

(** ** Numbers *)

Lemma Qltb_lt (a b : Q) : JS.Qltb a b = true ↔ (a < b)%Q.
Proof.
  unfold JS.Qltb. rewrite negb_true_iff.
  split.
  - intros H. apply Qnot_le_lt. intros Hle.
    apply Qle_bool_iff in Hle. congruence.
  - intros H. destruct (Qle_bool b a) eqn:E; [|reflexivity].
    apply Qle_bool_iff in E. exfalso. apply (Qlt_not_le _ _ H E).
Qed.

Lemma Qltb_ge (a b : Q) : JS.Qltb a b = false ↔ (b <= a)%Q.
Proof.
  unfold JS.Qltb. rewrite negb_false_iff. apply Qle_bool_iff.
Qed.

(** ** The line resolver *)









Example detectTrainLine_tokyo :
  detectTrainLine (mkLocation 35.6762 139.6503) = Some "JR山手線".
Proof. reflexivity. Qed.

Example detectTrainLine_far :
  detectTrainLine (mkLocation 34.0 135.0) = None.
Proof. reflexivity. Qed.

(** The numbers [139.7003] and [139.6503] differ by a little more than the
    number [0.05], and [139.7714] and [139.7414] by a little more than
    [0.03]: a point that far east of a reference point is outside its
    radius. *)
Example detectTrainLine_on_the_radius :
  (139.7003 - 139.6503)%float = 0.050000000000011369%float ∧
  detectTrainLine (mkLocation 35.6762 139.7003) = None ∧
  detectTrainLine (mkLocation 35.6581 139.7714) = None ∧
  detectTrainLine (mkLocation 35.6762 139.7002) = Some "JR山手線".
Proof. repeat split; reflexivity. Qed.



(** ** The geolocation callback *)

(** The four branches of the alight logic, one state each. *)
Lemma successCallback_branches (c : Closure) (s : HookState) (r : Reading) :
  successCallback c s r =
  let next onTrain line count :=
    {| isOnTrain := onTrain; currentLine := line;
       speed := calculatedSpeed s r; lowSpeedCount := count;
       previousTrainStatusRef := isTrainDetected c s r;
       previousLocationRef := Some (coords r);
       lastUpdateRef := currentTime r |} in
  if previousTrainStatusRef s && negb (isTrainDetected c s r) then
    if JS.lt (calculatedSpeed s r) (JS.Fin 15) then
      if (2 <=? captured_lowSpeedCount c)%nat then
        (next false None 0%nat,
         if onTrainExit_set c then [OnTrainExit] else [])
      else (next (isOnTrain s) (currentLine s) (S (lowSpeedCount s)), [])
    else (next (isOnTrain s) (currentLine s) 0%nat, [])
  else
    (next (isTrainDetected c s r)
          (if isTrainDetected c s r
           then Some (line_or_default (detectTrainLine (coords r)))
           else None) 0%nat, []).
Proof.
  unfold successCallback.
  destruct (previousTrainStatusRef s && negb (isTrainDetected c s r));
    [destruct (JS.lt (calculatedSpeed s r) (JS.Fin 15));
       [destruct (2 <=? captured_lowSpeedCount c)%nat|]|];
    reflexivity.
Qed.

Lemma successCallback_refs (c : Closure) (s : HookState) (r : Reading) :
  let s' := fst (successCallback c s r) in
  speed s' = calculatedSpeed s r ∧
  previousTrainStatusRef s' = isTrainDetected c s r ∧
  previousLocationRef s' = Some (coords r) ∧
  lastUpdateRef s' = currentTime r.
Proof.
  rewrite successCallback_branches.
  destruct (previousTrainStatusRef s && negb (isTrainDetected c s r));
    [destruct (JS.lt (calculatedSpeed s r) (JS.Fin 15));
       [destruct (2 <=? captured_lowSpeedCount c)%nat|]|];
    cbn; auto.
Qed.

(** The alight branch needs the captured [lowSpeedCount] to be at least 2. *)
Lemma successCallback_effects (c : Closure) (s : HookState) (r : Reading) :
  snd (successCallback c s r) ≠ [] →
  (2 <= captured_lowSpeedCount c)%nat ∧
  previousTrainStatusRef s = true ∧ isTrainDetected c s r = false.
Proof.
  rewrite successCallback_branches.
  destruct (2 <=? captured_lowSpeedCount c)%nat eqn:Hc;
    destruct (previousTrainStatusRef s) eqn:Hprev;
    destruct (isTrainDetected c s r) eqn:Hdet;
    destruct (JS.lt (calculatedSpeed s r) (JS.Fin 15)); cbn; try done.
  intros _. apply Nat.leb_le in Hc. auto.
Qed.

(** With the closure of the first render (or any closure created while the
    cell held 0 or 1) the exit callback is never scheduled. *)
Lemma run_never_exits (c : Closure) (rs : list Reading) (s : HookState) :
  (captured_lowSpeedCount c < 2)%nat →
  Forall (fun out => snd out = []) (run c s rs).
Proof.
  intros Hc. revert s. induction rs as [|r rest IH]; intros s; simpl.
  - constructor.
  - constructor; [|apply IH].
    destruct (snd (successCallback c s r)) eqn:E; [reflexivity|].
    assert (Hne : snd (successCallback c s r) ≠ []) by (rewrite E; discriminate).
    apply successCallback_effects in Hne. lia.
Qed.

(** The counter is raised only on a fix that also clears
    [previousTrainStatusRef], and the next fix resets it. *)
Lemma successCallback_live_invariant (c : Closure) (s : HookState) (r : Reading) :
  counter_invariant s →
  counter_invariant (fst (successCallback_live c s r)) ∧
  snd (successCallback_live c s r) = [].
Proof.
  intros [Hle Hone].
  unfold successCallback_live. rewrite successCallback_branches.
  unfold counter_invariant.
  destruct (previousTrainStatusRef s) eqn:Hprev.
  - assert (Hzero : lowSpeedCount s = 0%nat).
    { destruct (lowSpeedCount s) as [|[|n]]; [reflexivity| |lia].
      specialize (Hone eq_refl). discriminate. }
    rewrite Hzero.
    destruct (isTrainDetected _ s r) eqn:Hdet;
      destruct (JS.lt (calculatedSpeed s r) (JS.Fin 15));
      cbn; repeat split; auto; lia.
  - destruct (isTrainDetected _ s r) eqn:Hdet; cbn; repeat split; auto; lia.
Qed.

(** Even a callback that read the live cell would never schedule the exit
    callback on a stream of fixes that starts at mount. *)
Lemma run_live_never_exits (c : Closure) (rs : list Reading) (s : HookState) :
  counter_invariant s →
  Forall (fun out => snd out = []) (run_live c s rs).
Proof.
  revert s. induction rs as [|r rest IH]; intros s Hinv; simpl.
  - constructor.
  - destruct (successCallback_live_invariant c s r Hinv) as [Hinv' Hnil].
    constructor; [exact Hnil|]. apply IH. exact Hinv'.
Qed.

(** After an on-train fix, the flag falls at the second fix in a row that is
    not train-detected, whatever its speed, through the ordinary branch. *)
Lemma second_undetected_fix_clears (c : Closure) (s : HookState) (r : Reading) :
  previousTrainStatusRef s = false →
  isTrainDetected c s r = false →
  successCallback c s r =
    ({| isOnTrain := false; currentLine := None;
        speed := calculatedSpeed s r; lowSpeedCount := 0;
        previousTrainStatusRef := false;
        previousLocationRef := Some (coords r);
        lastUpdateRef := currentTime r |}, []).
Proof.
  intros Hprev Hdet. rewrite successCallback_branches, Hprev, Hdet.
  reflexivity.
Qed.

(** The ride 10, 40, 50, 45, 8, 8, 8 km/h on the callback: the flag after
    each fix, and no exit callback at all. *)
Example ride_trace :
  map (fun out => (isOnTrain (fst out), snd out))
      (run Scenario.development (initialState Scenario.mountTime) Scenario.ride)
  = [ (false, []); (true, []); (true, []); (true, []); (true, []);
      (false, []); (false, []) ].
Proof. vm_compute. reflexivity. Qed.

(** C1 on the code. The ride 10, 40, 50, 45, 8, 8, 8 km/h inside the radius
    of the first line, on the callback that the screen registers (created in
    the first render, when [lowSpeedCount] is 0). The flag is set after the
    second fix, not the third. The first sub-15 sample (the fifth fix) raises
    the counter to 1 and overwrites [previousTrainStatusRef] with false, so
    the second one (the sixth fix) takes the ordinary branch, which clears
    the flag and the counter without an exit callback; the seventh fix, the
    third sub-15 sample in a row, schedules no exit callback either. *)
Lemma ride_contradicts_third_and_seventh :
  let trace :=
    run Scenario.development (initialState Scenario.mountTime) Scenario.ride in
  ¬ (map (fun out => isOnTrain (fst out)) (take 3 trace) = [false; false; true])
  ∧ ¬ (map snd (drop 6 trace) = [ [OnTrainExit] ])
  ∧ map (fun out => isOnTrain (fst out)) trace
    = [false; true; true; true; true; false; false]
  ∧ map snd trace = [ []; []; []; []; []; []; [] ]
  ∧ map (fun out => previousTrainStatusRef (fst out)) trace
    = [false; true; true; true; false; false; false]
  ∧ map (fun out => lowSpeedCount (fst out)) trace
    = [0; 0; 0; 0; 1; 0; 0]%nat
  ∧ map (fun '(out, v) => JS.eq (speed (fst out)) (JS.Fin (inject_Z v)))
        (combine trace [10; 40; 50; 45; 8; 8; 8]%Z)
    = [true; true; true; true; true; true; true]
  ∧ captured_lowSpeedCount Scenario.development = 0%nat.
Proof.
  vm_compute. repeat split; try discriminate; reflexivity.
Qed.

(** On that ride boarding (flag set, line named) is reported after the
    second fix, the first one with a prior fix, a speed in the vehicle range
    and a line, and is still reported after the first sub-15 sample. In
    general, for a closure created while [lowSpeedCount] was below 2, the
    first fix that is not train-detected after a train-detected one keeps the
    flag and the line, counts one low sample when its speed is below 15 km/h,
    and schedules no exit callback. *)
Lemma boarding_at_second_fix_and_one_low_sample_kept :
  map (fun out => (isOnTrain (fst out), currentLine (fst out)))
      (take 5 (run Scenario.development (initialState Scenario.mountTime)
                   Scenario.ride))
  = [ (false, None); (true, Some "JR山手線"); (true, Some "JR山手線");
      (true, Some "JR山手線"); (true, Some "JR山手線") ] ∧
  ∀ (c : Closure) (s : HookState) (r : Reading),
    (captured_lowSpeedCount c < 2)%nat →
    previousTrainStatusRef s = true →
    isTrainDetected c s r = false →
    let out := successCallback c s r in
    isOnTrain (fst out) = isOnTrain s ∧
    currentLine (fst out) = currentLine s ∧
    lowSpeedCount (fst out) =
      (if JS.lt (calculatedSpeed s r) (JS.Fin 15) then S (lowSpeedCount s)
       else 0%nat) ∧
    snd out = [].
Proof.
  split; [vm_compute; reflexivity|].
  intros c s r Hc Hprev Hdet. rewrite successCallback_branches.
  rewrite Hprev, Hdet.
  assert (Hleb : (2 <=? captured_lowSpeedCount c)%nat = false)
    by (apply Nat.leb_gt; exact Hc).
  rewrite Hleb.
  destruct (JS.lt (calculatedSpeed s r) (JS.Fin 15)); cbn; auto.
Qed.

(** ** The speed computation *)

Lemma calculatedSpeed_previous (s : HookState) (r : Reading) :
  hasPrevious s = true →
  calculatedSpeed s r =
    if JS.gt (rawSpeed s r) (JS.Fin 200) then JS.Fin (random r * 40 + 40)
    else rawSpeed s r.
Proof.
  intros H. unfold calculatedSpeed. rewrite H. cbv zeta.
  destruct (JS.gt (rawSpeed s r) (JS.Fin 200)); [reflexivity|].
  destruct (JS.lt (rawSpeed s r) (JS.Fin 5)
            && JS.gt (JS.Fin (timeDiff s r)) (JS.Fin 2)); reflexivity.
Qed.

(** C2, as stated, at a raw speed of exactly 200 km/h right after a fix at
    10 km/h: the test [rawSpeed > 200] fails and 200 km/h is reported. *)
Lemma raw_200_is_reported :
  JS.eq (speed Scenario.after_first_fix) (JS.Fin 10) = true ∧
  hasPrevious Scenario.after_first_fix = true ∧
  JS.eq (rawSpeed Scenario.after_first_fix Scenario.jump_200) (JS.Fin 200)
  = true ∧
  JS.eq (calculatedSpeed Scenario.after_first_fix Scenario.jump_200)
        (JS.Fin 200) = true ∧
  JS.le (calculatedSpeed Scenario.after_first_fix Scenario.jump_200)
        (JS.Fin 80) = false.
Proof. vm_compute. repeat split; reflexivity. Qed.

(** C2, amended. For a fix that has a previous fix: when the raw speed is
    strictly above 200 km/h the reported speed is [40 + 40 * Math.random()],
    a value between 40 and 80 km/h; a raw speed of at most 200 km/h (or an
    undefined one) is reported unchanged. *)
Theorem speed_adjustment (s : HookState) (r : Reading) :
  hasPrevious s = true →
  (0 <= random r)%Q → (random r < 1)%Q →
  (JS.gt (rawSpeed s r) (JS.Fin 200) = true →
     calculatedSpeed s r = JS.Fin (random r * 40 + 40) ∧
     (40 <= random r * 40 + 40)%Q ∧ (random r * 40 + 40 <= 80)%Q ∧
     JS.ge (calculatedSpeed s r) (JS.Fin 40) = true ∧
     JS.le (calculatedSpeed s r) (JS.Fin 80) = true) ∧
  (JS.gt (rawSpeed s r) (JS.Fin 200) = false →
     calculatedSpeed s r = rawSpeed s r).
Proof.
  intros Hprev H0 H1. rewrite (calculatedSpeed_previous s r Hprev).
  split; intros Hgt; rewrite Hgt; [|reflexivity].
  assert (Hlo : (40 <= random r * 40 + 40)%Q).
  { apply Qle_trans with (0 * 40 + 40)%Q; [discriminate|].
    apply Qplus_le_compat; [|apply Qle_refl].
    apply Qmult_le_compat_r; [exact H0|discriminate]. }
  assert (Hhi : (random r * 40 + 40 <= 80)%Q).
  { apply Qle_trans with (1 * 40 + 40)%Q; [|discriminate].
    apply Qplus_le_compat; [|apply Qle_refl].
    apply Qmult_le_compat_r; [apply Qlt_le_weak; exact H1|discriminate]. }
  repeat split; auto.
  - unfold JS.ge, JS.le. apply Qle_bool_iff. exact Hlo.
  - unfold JS.le. apply Qle_bool_iff. exact Hhi.
Qed.

Lemma speed_adjustment_witness :
  JS.eq (calculatedSpeed Scenario.after_first_fix Scenario.jump_400)
        (JS.Fin 60) = true ∧
  calculatedSpeed Scenario.after_first_fix Scenario.jump_400
  = JS.Fin (random Scenario.jump_400 * 40 + 40).
Proof.
  split; [reflexivity|].
  apply (speed_adjustment Scenario.after_first_fix Scenario.jump_400);
    [reflexivity|discriminate|reflexivity|reflexivity].
Defined.

(** ** The train test *)

Lemma isTrainDetected_development (c : Closure) (s : HookState) (r : Reading) :
  isDevelopment c = true →
  isTrainDetected c s r = true ↔
  previousLocationRef s ≠ None ∧
  JS.ge (calculatedSpeed s r) (JS.Fin 30) = true ∧
  JS.le (calculatedSpeed s r) (JS.Fin 120) = true ∧
  detectTrainLine (coords r) ≠ None.
Proof.
  intros Hdev. unfold isTrainDetected, hasMultipleUpdates, isTrainSpeed,
    hasTrainLine. rewrite Hdev. cbv zeta.
  rewrite !andb_true_iff.
  destruct (previousLocationRef s), (detectTrainLine (coords r));
    intuition congruence.
Qed.

Lemma isTrainDetected_production (c : Closure) (s : HookState) (r : Reading) :
  isDevelopment c = false →
  isTrainDetected c s r = true ↔
  JS.gt (calculatedSpeed s r) (JS.Fin 20) = true ∧
  JS.lt (calculatedSpeed s r) (JS.Fin 100) = true.
Proof.
  intros Hprod. unfold isTrainDetected. rewrite Hprod. cbv zeta.
  apply andb_true_iff.
Qed.

(** The flag rises only on a train-detected fix. *)
Lemma boarding_needs_detection (c : Closure) (s : HookState) (r : Reading) :
  isOnTrain s = false →
  isOnTrain (fst (successCallback c s r)) = true →
  isTrainDetected c s r = true.
Proof.
  intros Hoff. rewrite successCallback_branches.
  destruct (2 <=? captured_lowSpeedCount c)%nat;
    destruct (previousTrainStatusRef s);
    destruct (isTrainDetected c s r);
    destruct (JS.lt (calculatedSpeed s r) (JS.Fin 15)); cbn; congruence.
Qed.

(** C3, as stated, on a production build: the first-ever fix, far from every
    line, reporting 10 m/s sets the flag, with the default line name. *)
Lemma production_boards_on_first_fix :
  let s := initialState Scenario.mountTime in
  let out := successCallback Scenario.production s Scenario.far_first_fix in
  previousLocationRef s = None ∧
  detectTrainLine (coords Scenario.far_first_fix) = None ∧
  JS.eq (calculatedSpeed s Scenario.far_first_fix) (JS.Fin 36) = true ∧
  isOnTrain s = false ∧
  isOnTrain (fst out) = true ∧
  currentLine (fst out) = Some "JR山手線".
Proof. vm_compute. repeat split; reflexivity. Qed.

(** C3, amended. A fix turns the flag from false to true only if, on a
    development build, the computed speed is between 30 and 120 km/h, the
    resolver names a line for the fix's coordinates and a prior fix exists;
    on a production build, only if the computed speed is strictly between 20
    and 100 km/h. On a development build the first-ever fix and a fix without
    a resolvable line therefore never board. *)
Theorem boarding_conditions (c : Closure) (s : HookState) (r : Reading) :
  isOnTrain s = false →
  isOnTrain (fst (successCallback c s r)) = true →
  if isDevelopment c then
    JS.ge (calculatedSpeed s r) (JS.Fin 30) = true ∧
    JS.le (calculatedSpeed s r) (JS.Fin 120) = true ∧
    detectTrainLine (coords r) ≠ None ∧
    previousLocationRef s ≠ None
  else
    JS.gt (calculatedSpeed s r) (JS.Fin 20) = true ∧
    JS.lt (calculatedSpeed s r) (JS.Fin 100) = true.
Proof.
  intros Hoff Hon.
  pose proof (boarding_needs_detection c s r Hoff Hon) as Hdet.
  destruct (isDevelopment c) eqn:Hdev.
  - apply isTrainDetected_development in Hdet; tauto.
  - apply isTrainDetected_production in Hdet; tauto.
Qed.

Lemma boarding_conditions_witness :
  JS.ge (calculatedSpeed Scenario.after_first_fix (Scenario.sample 2 (100 # 3)))
        (JS.Fin 30) = true ∧
  JS.le (calculatedSpeed Scenario.after_first_fix (Scenario.sample 2 (100 # 3)))
        (JS.Fin 120) = true ∧
  detectTrainLine (coords (Scenario.sample 2 (100 # 3))) ≠ None ∧
  previousLocationRef Scenario.after_first_fix ≠ None.
Proof.
  apply (boarding_conditions Scenario.development Scenario.after_first_fix
           (Scenario.sample 2 (100 # 3))); reflexivity.
Defined.

(** On a development build a first-ever fix, or a fix without a line, leaves
    a cleared flag cleared. *)
Lemma development_no_boarding (c : Closure) (s : HookState) (r : Reading) :
  isDevelopment c = true →
  isOnTrain s = false →
  previousLocationRef s = None ∨ detectTrainLine (coords r) = None →
  isOnTrain (fst (successCallback c s r)) = false.
Proof.
  intros Hdev Hoff Hno.
  destruct (isOnTrain (fst (successCallback c s r))) eqn:Hon; [|reflexivity].
  pose proof (boarding_needs_detection c s r Hoff Hon) as Hdet.
  apply (isTrainDetected_development c s r Hdev) in Hdet.
  destruct Hno; tauto.
Qed.

(** ** A repeated fix *)

Lemma atan2_0_1 : atan2 0 1 = 0%R.
Proof.
  unfold atan2. destruct (Rlt_dec 0 1) as [_|H]; [|exfalso; apply H; lra].
  replace (0 / 1)%R with 0%R by lra. apply atan_0.
Qed.

(** The haversine distance from a point to itself is 0. *)
Lemma calculateDistance_same (p : Location) : calculateDistance p p = 0%R.
Proof.
  unfold calculateDistance. cbv zeta.
  replace ((Q2R (rational (lat p)) - Q2R (rational (lat p))) * PI / 180 / 2)%R
    with 0%R by lra.
  replace ((Q2R (rational (lng p)) - Q2R (rational (lng p))) * PI / 180 / 2)%R
    with 0%R by lra.
  rewrite sin_0.
  replace (0 * 0 + cos (Q2R (rational (lat p)) * PI / 180)
                   * cos (Q2R (rational (lat p)) * PI / 180)
           * 0 * 0)%R with 0%R by lra.
  replace (1 - 0)%R with 1%R by lra.
  rewrite sqrt_0, sqrt_1, atan2_0_1. lra.
Qed.

Lemma div_zero_by_zero (a b : Q) : (a == 0)%Q → (b == 0)%Q → JS.div a b = JS.NaN.
Proof.
  intros Ha Hb. unfold JS.div.
  assert (Hb' : Qeq_bool b 0 = true) by (apply Qeq_bool_iff; exact Hb).
  rewrite Hb'. unfold JS.sgn.
  assert (Hn : Qnum a = 0%Z).
  { unfold Qeq in Ha. simpl in Ha. lia. }
  rewrite Hn. reflexivity.
Qed.

(** A fix at the position and the clock reading of the previous one: the
    distance is 0, the elapsed time is 0, the raw speed [0/0 * 3.6] is [NaN],
    which is what [setSpeed] receives; the fix is not train-detected on
    either build, so [previousTrainStatusRef] is cleared. *)
Lemma repeated_fix_speed_is_NaN (c : Closure) (s : HookState) (r : Reading)
    (previous : Location) :
  previousLocationRef s = Some previous →
  lastUpdateRef s ≠ 0%Z →
  coords r = previous →
  currentTime r = lastUpdateRef s →
  distance_read s r →
  rawSpeed s r = JS.NaN ∧
  speed (fst (successCallback c s r)) = JS.NaN ∧
  previousTrainStatusRef (fst (successCallback c s r)) = false.
Proof.
  intros Hprev Hlast Hsame Htime Hread.
  unfold distance_read in Hread. rewrite Hprev, Hsame in Hread.
  rewrite calculateDistance_same in Hread.
  assert (Hd : (distance r == 0)%Q).
  { apply eqR_Qeq. rewrite Hread, RMicromega.Q2R_0. reflexivity. }
  assert (Ht : (timeDiff s r == 0)%Q).
  { unfold timeDiff. rewrite Htime, Z.sub_diag. reflexivity. }
  assert (Hraw : rawSpeed s r = JS.NaN).
  { unfold rawSpeed. rewrite (div_zero_by_zero _ _ Hd Ht). reflexivity. }
  assert (Hhas : hasPrevious s = true).
  { unfold hasPrevious. rewrite Hprev. apply negb_true_iff, Z.eqb_neq, Hlast. }
  assert (Hspeed : calculatedSpeed s r = JS.NaN).
  { rewrite (calculatedSpeed_previous s r Hhas), Hraw. reflexivity. }
  destruct (successCallback_refs c s r) as (Hs & Hp & _).
  rewrite Hs, Hp. repeat split; auto.
  unfold isTrainDetected. rewrite Hspeed.
  destruct (isDevelopment c); cbn; [|reflexivity].
  rewrite andb_false_r. reflexivity.
Qed.

(** C5 on the code. A fix identical to the previous one (same position, same
    millisecond) while train-detected: the speed becomes [NaN] and
    [previousTrainStatusRef] falls from true to false; the same kind of fix
    right after one low-speed sample clears the on-train flag and the line. *)
Theorem repeated_fix_on_the_code :
  let out := successCallback Scenario.development Scenario.on_train
               Scenario.repeated_fix in
  let out' := successCallback Scenario.development Scenario.after_low_sample
                Scenario.repeated_low_fix in
  previousLocationRef Scenario.on_train = Some (coords Scenario.repeated_fix) ∧
  lastUpdateRef Scenario.on_train = currentTime Scenario.repeated_fix ∧
  JS.eq (speed Scenario.on_train) (JS.Fin 40) = true ∧
  speed (fst out) = JS.NaN ∧
  previousTrainStatusRef Scenario.on_train = true ∧
  previousTrainStatusRef (fst out) = false ∧
  previousLocationRef Scenario.after_low_sample
  = Some (coords Scenario.repeated_low_fix) ∧
  lastUpdateRef Scenario.after_low_sample
  = currentTime Scenario.repeated_low_fix ∧
  (isOnTrain Scenario.after_low_sample, currentLine Scenario.after_low_sample)
  = (true, Some "JR山手線") ∧
  (isOnTrain (fst out'), currentLine (fst out'), speed (fst out'))
  = (false, None, JS.NaN).
Proof. vm_compute. repeat split; reflexivity. Qed.

(** ** The screen's join effect *)

Lemma connectToChat_hook (b : bool) (st : ScreenState) :
  hook (fst (connectToChat b st)) = hook st.
Proof.
  unfold connectToChat.
  destruct (currentLine (hook st)) as [line|]; [|reflexivity].
  destruct (String.eqb line "" || String.eqb (nickname st) "");
    [reflexivity|].
  destruct b; reflexivity.
Qed.

Lemma connectToChat_events (b : bool) (st : ScreenState) :
  filter (fun e => is_boarding e = true) (snd (connectToChat b st)) = [].
Proof.
  unfold connectToChat.
  destruct (currentLine (hook st)) as [line|]; [|reflexivity].
  destruct (String.eqb line "" || String.eqb (nickname st) "");
    [reflexivity|].
  destruct b; reflexivity.
Qed.

Lemma exits_not_boarding (effects : list Effect) :
  filter (fun e => is_boarding e = true) (map (fun _ => TrainExit) effects) = [].
Proof. induction effects as [|e rest IH]; [reflexivity|exact IH]. Qed.

(** What one fix does to a mounted screen, by whether the effect fires. *)
Lemma screen_step_mounted (c : Closure) (st : ScreenState) (r : Reading)
    (b : bool) :
  replaced st = false →
  let h := fst (successCallback c (hook st) r) in
  hook (fst (screen_step c st (r, b))) = h ∧
  length (filter (fun e => is_boarding e = true) (snd (screen_step c st (r, b))))
  = (if effect_fires (isConnecting st) (hook st) h then 1 else 0)%nat ∧
  (effect_fires (isConnecting st) (hook st) h = false →
   isConnecting (fst (screen_step c st (r, b))) = isConnecting st ∧
   replaced (fst (screen_step c st (r, b))) = false).
Proof.
  intros Hmounted. unfold screen_step. rewrite Hmounted.
  destruct (successCallback c (hook st) r) as [h effects]. cbn [fst].
  destruct (effect_fires (isConnecting st) (hook st) h).
  - match goal with |- context [connectToChat b ?x] => set (st1 := x) end.
    pose proof (connectToChat_hook b st1) as Hhook.
    pose proof (connectToChat_events b st1) as Hevents.
    destruct (connectToChat b st1) as [st2 events]. cbn in *.
    rewrite filter_app, exits_not_boarding.
    rewrite app_nil_l, filter_cons_True by reflexivity.
    rewrite Hevents. repeat split; auto; discriminate.
  - cbn. rewrite exits_not_boarding. repeat split; auto.
Qed.

Lemma screen_step_replaced (c : Closure) (st : ScreenState)
    (input : Reading * bool) :
  replaced st = true → screen_step c st input = (st, []).
Proof.
  intros H. unfold screen_step. destruct input as [r b]. rewrite H. reflexivity.
Qed.

Lemma boardings_cons (out : ScreenState * list ScreenEvent)
    (trace : list (ScreenState * list ScreenEvent)) :
  boardings (out :: trace)
  = (length (filter (fun e => is_boarding e = true) (snd out))
     + boardings trace)%nat.
Proof.
  unfold boardings. cbn. rewrite filter_app, length_app. reflexivity.
Qed.

(** While the flag stays set and the line name stays the same, the
    dependencies of the effect do not change and no fix boards again. *)
Lemma no_boarding_while_on_same_line (c : Closure) (line : option string)
    (inputs : list (Reading * bool)) (st : ScreenState) :
  isOnTrain (hook st) = true →
  currentLine (hook st) = line →
  Forall (fun out => isOnTrain (hook (fst out)) = true ∧
                     currentLine (hook (fst out)) = line)
         (screen_run c st inputs) →
  boardings (screen_run c st inputs) = 0%nat.
Proof.
  revert st. induction inputs as [|[r b] rest IH]; intros st Hon Hline Hall.
  - reflexivity.
  - cbn [screen_run] in *. apply Forall_cons in Hall.
    destruct Hall as [[Hon' Hline'] Hrest].
    rewrite boardings_cons, (IH _ Hon' Hline' Hrest), Nat.add_0_r.
    destruct (replaced st) eqn:Hrep.
    + rewrite screen_step_replaced by exact Hrep. reflexivity.
    + destruct (screen_step_mounted c st r b Hrep) as (Hhook & Hcount & _).
      rewrite Hcount. rewrite Hhook in Hon', Hline'.
      unfold effect_fires, deps_changed, deps.
      rewrite Hon, Hline, Hon', Hline'.
      rewrite bool_decide_eq_true_2 by reflexivity. reflexivity.
Qed.

Lemma line_or_default_not_empty (line : option string) :
  String.eqb (line_or_default line) "" = false.
Proof.
  unfold line_or_default. destruct line as [l|]; [|reflexivity].
  destruct (String.eqb l "") eqn:E; [reflexivity|exact E].
Qed.

(** The line that a boarding fix sets is a non-empty name. *)
Lemma boarding_sets_line (c : Closure) (s : HookState) (r : Reading) :
  isOnTrain s = false →
  isOnTrain (fst (successCallback c s r)) = true →
  truthy_string (currentLine (fst (successCallback c s r))) = true.
Proof.
  intros Hoff. rewrite successCallback_branches.
  destruct (2 <=? captured_lowSpeedCount c)%nat;
    destruct (previousTrainStatusRef s);
    destruct (isTrainDetected c s r);
    destruct (JS.lt (calculatedSpeed s r) (JS.Fin 15)); cbn;
    try congruence;
    intros _; rewrite line_or_default_not_empty; reflexivity.
Qed.

(** C4, as stated, on a ride that crosses from the first line to the second
    while the flag stays set (the join at boarding having failed): the effect
    calls [connectToChat] a second time, now for the second line's room. *)
Lemma line_change_boards_again :
  let trace :=
    screen_run Scenario.development Scenario.screen Scenario.ride_across_lines in
  map (fun out => isOnTrain (hook (fst out))) trace = [false; true; true] ∧
  map snd trace
  = [ [];
      [ConnectToChat; JoinFailed];
      [ConnectToChat; JoinRoom "train_JR中央線" "JR中央線" "taro"] ] ∧
  boardings trace = 2%nat.
Proof. vm_compute. repeat split; reflexivity. Qed.

(** C4, amended. On a mounted screen that is not connecting, a run of fixes
    that sets the on-train flag at its first fix and keeps both the flag and
    the resolved line name until its last fix calls [connectToChat] exactly
    once, at the first fix, however many fixes follow. *)
Theorem one_boarding_per_run_on_one_line (c : Closure) (st : ScreenState)
    (first : Reading * bool) (others : list (Reading * bool))
    (line : option string) :
  replaced st = false →
  isConnecting st = false →
  isOnTrain (hook st) = false →
  Forall (fun out => isOnTrain (hook (fst out)) = true ∧
                     currentLine (hook (fst out)) = line)
         (screen_run c st (first :: others)) →
  boardings (screen_run c st (first :: others)) = 1%nat ∧
  boardings (screen_run c (fst (screen_step c st first)) others) = 0%nat.
Proof.
  intros Hmounted Hidle Hoff Hall. destruct first as [r b].
  cbn [screen_run] in *. apply Forall_cons in Hall.
  destruct Hall as [[Hon Hline] Hrest].
  pose proof (no_boarding_while_on_same_line c line others _ Hon Hline Hrest)
    as Hlater.
  rewrite boardings_cons, Hlater, Nat.add_0_r. split; [|reflexivity].
  destruct (screen_step_mounted c st r b Hmounted) as (Hhook & Hcount & _).
  rewrite Hcount. rewrite Hhook in Hon.
  pose proof (boarding_sets_line c (hook st) r Hoff Hon) as Htruthy.
  unfold effect_fires, deps_changed, deps.
  rewrite Hoff, Hon, Htruthy, Hidle.
  rewrite bool_decide_eq_false_2 by congruence. reflexivity.
Qed.

Lemma one_boarding_per_run_on_one_line_witness :
  boardings
    (screen_run Scenario.development
       (fst (screen_step Scenario.development Scenario.screen
               (Scenario.first_fix, false)))
       (tl Scenario.ride_on_one_line)) = 1%nat.
Proof.
  apply (one_boarding_per_run_on_one_line Scenario.development
           (fst (screen_step Scenario.development Scenario.screen
                   (Scenario.first_fix, false)))
           (Scenario.sample 2 (100 # 3), false)
           [ (Scenario.sample 3 (125 # 3), true);
             (Scenario.sample 4 (75 # 2), true) ]
           (Some "JR山手線"));
    [reflexivity|reflexivity|reflexivity|].
  vm_compute. repeat constructor.
Defined.

(** ** The server: rooms *)

Lemma deleteRoom_lookup_ne (roomId other : string) (table : gmap string Room) :
  other ≠ roomId → deleteRoom roomId table !! other = table !! other.
Proof.
  intros Hne. unfold deleteRoom.
  destruct (table !! roomId) as [room|]; [|reflexivity].
  destruct (length (room_users room) =? 0)%nat; [|reflexivity].
  apply lookup_delete_ne. congruence.
Qed.



Lemma createRoom_deleteRoom (roomId line : string) (now : Z)
    (table : gmap string Room) :
  table !! roomId = None →
  deleteRoom roomId (fst (createRoom roomId line now table)) = table.
Proof.
  intros Hnone. unfold createRoom, deleteRoom. cbn [fst].
  rewrite lookup_insert_eq. cbn.
  rewrite delete_insert_eq. apply delete_id. exact Hnone.
Qed.

(** C10. [deleteRoom] removes the entry of [roomId] exactly when the room
    exists and its user map is empty. On an unknown [roomId], and on a room
    that still has users, it returns the [rooms] map unchanged; it never
    touches another entry. *)
Theorem deleteRoom_only_empty (roomId : string) (table : gmap string Room) :
  (table !! roomId = None → deleteRoom roomId table = table) ∧
  (∀ room, table !! roomId = Some room → room_users room ≠ [] →
           deleteRoom roomId table = table) ∧
  (∀ room, table !! roomId = Some room → room_users room = [] →
           deleteRoom roomId table = delete roomId table) ∧
  (deleteRoom roomId table ≠ table →
   ∃ room, table !! roomId = Some room ∧ room_users room = []) ∧
  (∀ other, other ≠ roomId → deleteRoom roomId table !! other = table !! other).
Proof.
  unfold deleteRoom. repeat split.
  - intros ->. reflexivity.
  - intros room -> Hne. destruct (room_users room); [congruence|reflexivity].
  - intros room -> ->. reflexivity.
  - destruct (table !! roomId) as [room|]; [|congruence].
    destruct (room_users room) eqn:E; cbn; [|congruence].
    intros _. exists room. auto.
  - intros other Hne. apply deleteRoom_lookup_ne. exact Hne.
Qed.

Lemma deleteRoom_only_empty_witness :
  deleteRoom "train_JR" (rooms Scenario.two_members)
  = rooms Scenario.two_members ∧
  deleteRoom "train_JR" Scenario.created_only
  = delete "train_JR" Scenario.created_only.
Proof.
  split.
  - destruct (deleteRoom_only_empty "train_JR" (rooms Scenario.two_members))
      as (_ & Hpopulated & _).
    apply (Hpopulated (Scenario.room [("alice", Scenario.alice);
                                      ("bob", Scenario.bob)]));
      [apply lookup_insert_eq|discriminate].
  - destruct (deleteRoom_only_empty "train_JR" Scenario.created_only)
      as (_ & _ & Hempty & _).
    apply (Hempty (snd (createRoom "train_JR" "JR" 0 ∅)));
      [apply lookup_insert_eq|reflexivity].
Defined.

(** ** The server: socket events *)

(** No listener changes the store. *)
Lemma on_event_store (e : ClientEvent) (st : Store) : fst (on_event e st) = st.
Proof.
  unfold on_event.
  destruct (String.eqb (event_name e) "disconnect"); [reflexivity|].
  destruct (String.eqb (event_name e) "ping"); reflexivity.
Qed.

(** Only [ping] has a listener that answers. *)
Lemma on_event_silent (e : ClientEvent) (st : Store) :
  event_name e ≠ "ping" → on_event e st = (st, []).
Proof.
  intros Hne. unfold on_event.
  destruct (String.eqb (event_name e) "disconnect"); [reflexivity|].
  destruct (String.eqb (event_name e) "ping") eqn:E; [|reflexivity].
  apply String.eqb_eq in E. contradiction.
Qed.


Lemma on_inbound_store (i : Inbound) (st : Store) : fst (on_inbound i st) = st.
Proof. destruct i as [socket|e]; [reflexivity|apply on_event_store]. Qed.

Lemma server_store (traffic : list Inbound) (st : Store) :
  fst (server st traffic) = st.
Proof.
  revert st. induction traffic as [|i rest IH]; intros st; [reflexivity|].
  cbn [server]. pose proof (on_inbound_store i st) as H1.
  destruct (on_inbound i st) as [st1 out1]. cbn in H1. subst st1.
  destruct (crashed out1); [reflexivity|].
  specialize (IH st). destruct (server st rest) as [st2 out2]. exact IH.
Qed.

(** The events of connected sockets are a part of the traffic. *)
Lemma server_events (events : list ClientEvent) (st : Store) :
  server st (map Event events) = serve st events.
Proof.
  revert st. induction events as [|e rest IH]; intros st; [reflexivity|].
  cbn [map server serve on_inbound].
  destruct (on_event e st) as [st1 out1]. rewrite IH. reflexivity.
Qed.



(** ** The server: fan-out *)

Section Fanout.

Context {A : Type}.
Variables (ev : string) (d : A) (excludeSocketId : option string).

Lemma deliveries_app (socket : string) (es1 es2 : list (Emission A)) :
  deliveries socket (es1 ++ es2)%list
  = (deliveries socket es1 + deliveries socket es2)%nat.
Proof. unfold deliveries. rewrite filter_app, length_app. reflexivity. Qed.

Lemma deliveries_emit (socket : string) (entry : string * User) :
  deliveries socket (emit ev d excludeSocketId entry)
  = if bool_decide (socketId (snd entry) = socket
                    ∧ Some socket ≠ excludeSocketId)
    then 1%nat else 0%nat.
Proof.
  unfold emit, deliveries.
  destruct (bool_decide (Some (socketId (snd entry)) = excludeSocketId))
    eqn:Hex.
  - apply bool_decide_eq_true in Hex.
    rewrite bool_decide_eq_false_2; [reflexivity|].
    intros [<- Hne]. contradiction.
  - apply bool_decide_eq_false in Hex.
    destruct (decide (socketId (snd entry) = socket)) as [Heq|Hne].
    + rewrite filter_cons_True by exact Heq.
      rewrite bool_decide_eq_true_2; [reflexivity|].
      split; [exact Heq|]. rewrite <- Heq. exact Hex.
    + rewrite filter_cons_False by exact Hne.
      rewrite bool_decide_eq_false_2; [reflexivity|]. tauto.
Qed.

Lemma deliveries_absent (socket : string) (entries : list (string * User)) :
  socket ∉ map (fun entry => socketId (snd entry)) entries →
  deliveries socket (flat_map (emit ev d excludeSocketId) entries) = 0%nat.
Proof.
  induction entries as [|entry rest IH]; intros Hnot; [reflexivity|].
  cbn [flat_map]. rewrite deliveries_app, deliveries_emit.
  cbn [map] in Hnot. apply not_elem_of_cons in Hnot.
  destruct Hnot as [Hne Hrest].
  rewrite bool_decide_eq_false_2 by (intros [Heq _]; congruence).
  rewrite (IH Hrest). reflexivity.
Qed.

Lemma deliveries_excluded (socket : string) (entries : list (string * User)) :
  excludeSocketId = Some socket →
  deliveries socket (flat_map (emit ev d excludeSocketId) entries) = 0%nat.
Proof.
  intros Hex. induction entries as [|entry rest IH]; [reflexivity|].
  cbn [flat_map]. rewrite deliveries_app, deliveries_emit, IH.
  rewrite bool_decide_eq_false_2 by (intros [_ Hne]; congruence).
  reflexivity.
Qed.

Lemma deliveries_member (key : string) (user : User)
    (entries : list (string * User)) :
  NoDup (map (fun entry => socketId (snd entry)) entries) →
  (key, user) ∈ entries →
  Some (socketId user) ≠ excludeSocketId →
  deliveries (socketId user) (flat_map (emit ev d excludeSocketId) entries) = 1%nat.
Proof.
  induction entries as [|entry rest IH]; intros Hnodup Hin Hne.
  - apply elem_of_nil in Hin. contradiction.
  - cbn [map] in Hnodup. apply NoDup_cons in Hnodup.
    destruct Hnodup as [Hfresh Hnodup].
    cbn [flat_map]. rewrite deliveries_app, deliveries_emit.
    apply elem_of_cons in Hin. destruct Hin as [<-|Hin].
    + cbn [snd] in *. rewrite bool_decide_eq_true_2 by tauto.
      rewrite (deliveries_absent _ _ Hfresh). reflexivity.
    + rewrite (IH Hnodup Hin Hne).
      rewrite bool_decide_eq_false_2; [reflexivity|].
      intros [Heq _]. apply Hfresh. rewrite Heq.
      apply (list_elem_of_fmap_2 (fun entry => socketId (snd entry))
               rest (key, user)). exact Hin.
Qed.

Lemma emit_payload (entries : list (string * User)) :
  Forall (fun e => event e = ev ∧ data e = d) (flat_map (emit ev d excludeSocketId) entries).
Proof.
  induction entries as [|entry rest IH]; [constructor|].
  cbn [flat_map]. apply Forall_app. split; [|exact IH].
  unfold emit. destruct (bool_decide _); repeat constructor.
Qed.

Lemma broadcastToRoom_emit (roomId : string) (table : gmap string Room)
    (room : Room) :
  table !! roomId = Some room →
  broadcastToRoom roomId ev d excludeSocketId table
  = flat_map (emit ev d excludeSocketId) (room_users room).
Proof. intros H. unfold broadcastToRoom. rewrite H. reflexivity. Qed.

End Fanout.

(** C7, as stated. In a store where alice and bob are members of one room, a
    [sendMessage] from alice's socket produces no output: bob receives no
    [receiveMessage]. The same holds on the running server: after two
    [joinRoom] events and a [sendMessage] nothing has been emitted. *)
Lemma sendMessage_delivers_nothing :
  (∃ room, rooms Scenario.two_members !! "train_JR" = Some room ∧
           length (room_users room) = 2%nat) ∧
  received "socket-b"
    (snd (on_event (Scenario.client "socket-a" "sendMessage")
            Scenario.two_members)) = 0%nat ∧
  snd (serve emptyStore
         [ Scenario.client "socket-a" "joinRoom";
           Scenario.client "socket-b" "joinRoom";
           Scenario.client "socket-a" "sendMessage" ]) = [].
Proof.
  split; [|split; reflexivity].
  eexists. split; [apply lookup_insert_eq|reflexivity].
Qed.

(** C7, amended. The server registers no [sendMessage] listener, so a
    [sendMessage] event changes nothing and delivers nothing. The fan-out
    helper [broadcastToRoom(roomId, event, data, excludeSocketId)], for a room
    whose users have pairwise distinct socket ids, emits the event with the
    given data exactly once to every user whose socket id differs from
    [excludeSocketId], and never to the excluded socket. *)
Theorem broadcastToRoom_fanout {A : Type} (roomId ev : string) (d : A)
    (excludeSocketId : option string) (table : gmap string Room) (room : Room) :
  table !! roomId = Some room →
  NoDup (map (fun entry : string * User => socketId (snd entry))
             (room_users room)) →
  let emissions := broadcastToRoom roomId ev d excludeSocketId table in
  (∀ key user,
      (key, user) ∈ room_users room →
      Some (socketId user) ≠ excludeSocketId →
      deliveries (socketId user) emissions = 1%nat) ∧
  (∀ socket, excludeSocketId = Some socket →
             deliveries socket emissions = 0%nat) ∧
  Forall (fun e => event e = ev ∧ data e = d) emissions ∧
  (∀ (e : ClientEvent) (st : Store),
      event_name e = "sendMessage" → on_event e st = (st, [])).
Proof.
  intros Hroom Hnodup emissions. subst emissions.
  rewrite (broadcastToRoom_emit ev d excludeSocketId roomId table room Hroom).
  repeat split.
  - intros key user Hin Hne.
    apply (deliveries_member ev d excludeSocketId key user); assumption.
  - intros socket Hex. apply deliveries_excluded. exact Hex.
  - apply emit_payload.
  - intros e st Hname. apply on_event_silent. rewrite Hname. discriminate.
Qed.

Lemma broadcastToRoom_fanout_witness :
  deliveries "socket-b"
    (broadcastToRoom "train_JR" "receiveMessage" "hello" (Some "socket-a")
       (rooms Scenario.two_members)) = 1%nat ∧
  deliveries "socket-a"
    (broadcastToRoom "train_JR" "receiveMessage" "hello" (Some "socket-a")
       (rooms Scenario.two_members)) = 0%nat.
Proof.
  assert (Hroom : rooms Scenario.two_members !! "train_JR"
                  = Some (Scenario.room [("alice", Scenario.alice);
                                         ("bob", Scenario.bob)]))
    by apply lookup_insert_eq.
  assert (Hnodup : NoDup (map (fun entry : string * User => socketId (snd entry))
                            (room_users
                               (Scenario.room [("alice", Scenario.alice);
                                               ("bob", Scenario.bob)])))).
  { cbn. apply NoDup_cons. split; [|apply NoDup_singleton].
    intros Hin. apply list_elem_of_singleton in Hin. discriminate. }
  destruct (broadcastToRoom_fanout "train_JR" "receiveMessage" "hello"
              (Some "socket-a") (rooms Scenario.two_members) _ Hroom Hnodup)
    as (Hothers & Hsender & _).
  split.
  - apply (Hothers "bob" Scenario.bob); [|discriminate].
    apply elem_of_cons. right. apply elem_of_cons. left. reflexivity.
  - apply Hsender. reflexivity.
Defined.

(** C9, as stated. On the running server, after two sockets have each sent
    [joinRoom], the disconnect of the first one is answered with nothing: the
    socket that remains is not notified, and the [users] and [rooms] maps are
    what they were. *)
Lemma disconnect_notifies_nobody :
  serve emptyStore
    [ Scenario.client "socket-a" "joinRoom";
      Scenario.client "socket-b" "joinRoom";
      Scenario.client "socket-a" "disconnect" ]
  = (emptyStore, []) ∧
  serve emptyStore
    [ Scenario.client "socket-a" "joinRoom";
      Scenario.client "socket-b" "joinRoom";
      Scenario.client "socket-a" "leaveRoom" ]
  = (emptyStore, []).
Proof. split; reflexivity. Qed.

(** C9, amended. The [disconnect] listener only logs: a transport-level
    disconnect leaves [users] and [rooms] unchanged and emits nothing, and so
    does a [leaveRoom] event, for which no listener is registered; in that
    sense the two have the same effect on the store. *)
Theorem disconnect_same_as_leave (disconnect leave : ClientEvent) (st : Store) :
  event_name disconnect = "disconnect" →
  event_name leave = "leaveRoom" →
  on_event disconnect st = (st, []) ∧
  on_event leave st = on_event disconnect st.
Proof.
  intros Hd Hl.
  rewrite (on_event_silent disconnect st) by (rewrite Hd; discriminate).
  rewrite (on_event_silent leave st) by (rewrite Hl; discriminate).
  auto.
Qed.

Lemma disconnect_same_as_leave_witness :
  on_event (Scenario.client "socket-a" "disconnect") emptyStore
  = (emptyStore, []) ∧
  on_event (Scenario.client "socket-a" "leaveRoom") emptyStore
  = on_event (Scenario.client "socket-a" "disconnect") emptyStore.
Proof.
  apply (disconnect_same_as_leave (Scenario.client "socket-a" "disconnect")
           (Scenario.client "socket-a" "leaveRoom") emptyStore);
    reflexivity.
Defined.

(** * Further properties of the code *)

(** ** The server's room helpers *)

Lemma deleteRoom_lookup (roomId key : string) (table : gmap string Room) :
  deleteRoom roomId table !! key =
  if decide (key = roomId) then
    match table !! roomId with
    | Some room =>
        if (length (room_users room) =? 0)%nat then None else Some room
    | None => None
    end
  else table !! key.
Proof.
  destruct (decide (key = roomId)) as [->|Hne].
  - unfold deleteRoom. destruct (table !! roomId) as [room|] eqn:E.
    + destruct (length (room_users room) =? 0)%nat.
      * apply lookup_delete_eq.
      * exact E.
    + exact E.
  - apply deleteRoom_lookup_ne. exact Hne.
Qed.

(** [createRoom] registers a fresh room under [roomId] whatever was there:
    the new entry has no users and no messages, so a room that already
    existed loses its members; nobody is listed for it or reached by a
    broadcast to it; the other rooms are untouched and the table grows by one
    exactly when the id was free. *)
Theorem createRoom_resets_room (roomId line : string) (now : Z)
    (table : gmap string Room) :
  let table' := fst (createRoom roomId line now table) in
  let room := snd (createRoom roomId line now table) in
  table' !! roomId = Some room ∧
  room_users room = [] ∧ messages room = [] ∧
  room_id room = roomId ∧ trainLine room = line ∧
  getRoomUsers roomId table' = [] ∧
  (∀ (ev d : string) excludeSocketId,
      broadcastToRoom roomId ev d excludeSocketId table' = []) ∧
  (∀ other, other ≠ roomId → table' !! other = table !! other) ∧
  size table' = (match table !! roomId with
                 | Some _ => size table
                 | None => S (size table)
                 end).
Proof.
  cbn. repeat split.
  - apply lookup_insert_eq.
  - unfold getRoomUsers. rewrite lookup_insert_eq. reflexivity.
  - intros ev d ex. unfold broadcastToRoom. rewrite lookup_insert_eq.
    reflexivity.
  - intros other Hne. apply lookup_insert_ne. congruence.
  - destruct (table !! roomId) as [old|] eqn:E.
    + rewrite <- (insert_delete_id table roomId old E) at 2.
      rewrite <- insert_delete_eq.
      rewrite !map_size_insert_None by apply lookup_delete_eq. reflexivity.
    + apply map_size_insert_None. exact E.
Qed.

(** [deleteRoom] can be repeated and reordered: a second call on the same id
    changes nothing more, calls on two ids commute, and a [deleteRoom] right
    after a [createRoom] of the same id removes the entry even if a populated
    room was registered under that id before. *)
Theorem deleteRoom_composes (r1 r2 line : string) (now : Z)
    (table : gmap string Room) :
  deleteRoom r1 (deleteRoom r1 table) = deleteRoom r1 table ∧
  deleteRoom r1 (deleteRoom r2 table) = deleteRoom r2 (deleteRoom r1 table) ∧
  deleteRoom r1 (fst (createRoom r1 line now table)) = delete r1 table.
Proof.
  repeat split.
  - apply map_eq. intros key. rewrite !deleteRoom_lookup.
    destruct (decide (key = r1)) as [->|Hne]; [|reflexivity].
    rewrite decide_True by reflexivity.
    destruct (table !! r1) as [room|]; [|reflexivity].
    destruct (length (room_users room) =? 0)%nat eqn:E; [reflexivity|].
    rewrite E. reflexivity.
  - apply map_eq. intros key. rewrite !deleteRoom_lookup.
    repeat case_decide; subst; try congruence;
      repeat match goal with
        | |- context [table !! ?k] => destruct (table !! k) as [?room|]
        | |- context [(length (room_users ?r) =? 0)%nat] =>
            let E := fresh "E" in
            destruct (length (room_users r) =? 0)%nat eqn:E; rewrite ?E
        end; reflexivity.
  - unfold createRoom, deleteRoom. cbn [fst].
    rewrite lookup_insert_eq. cbn. apply delete_insert_eq.
Qed.

Lemma filter_all_true {A : Type} (P : A → Prop) `{∀ x, Decision (P x)}
    (l : list A) :
  (∀ x, P x) → filter P l = l.
Proof.
  intros Hall. induction l as [|x rest IH]; [reflexivity|].
  rewrite filter_cons_True by apply Hall. rewrite IH. reflexivity.
Qed.

Lemma flat_map_emit_recipients {A : Type} (ev : string) (d : A)
    (excludeSocketId : option string) (entries : list (string * User)) :
  map to (flat_map (emit ev d excludeSocketId) entries)
  = filter (fun socket => Some socket ≠ excludeSocketId)
           (map (fun entry => socketId (snd entry)) entries).
Proof.
  induction entries as [|entry rest IH]; [reflexivity|].
  cbn [flat_map map]. rewrite map_app, IH. unfold emit at 1. cbn zeta.
  destruct (decide (Some (socketId (snd entry)) = excludeSocketId))
    as [Heq|Hne].
  - rewrite bool_decide_eq_true_2 by exact Heq.
    rewrite filter_cons_False by (intros H; apply H; exact Heq). reflexivity.
  - rewrite bool_decide_eq_false_2 by exact Hne.
    rewrite filter_cons_True by exact Hne. reflexivity.
Qed.

(** A broadcast addresses the sockets of the room's users in the order in
    which the users were added, leaving out the excluded socket; without an
    excluded socket it makes one emission per entry of [getRoomUsers]; for an
    unknown room both are empty. *)
Theorem broadcastToRoom_recipients {A : Type} (roomId ev : string) (d : A)
    (excludeSocketId : option string) (table : gmap string Room) :
  map to (broadcastToRoom roomId ev d excludeSocketId table)
  = filter (fun socket => Some socket ≠ excludeSocketId)
      (match table !! roomId with
       | Some room => map (fun entry => socketId (snd entry)) (room_users room)
       | None => []
       end) ∧
  length (broadcastToRoom roomId ev d None table)
  = length (getRoomUsers roomId table) ∧
  (table !! roomId = None →
   broadcastToRoom roomId ev d excludeSocketId table = [] ∧
   getRoomUsers roomId table = []).
Proof.
  unfold broadcastToRoom, getRoomUsers.
  destruct (table !! roomId) as [room|]; repeat split; try reflexivity.
  - apply flat_map_emit_recipients.
  - rewrite <- (length_map to), flat_map_emit_recipients.
    rewrite filter_all_true by (intros; discriminate).
    rewrite !length_map. reflexivity.
  - discriminate.
  - discriminate.
Qed.

Lemma on_inbound_answer (i : Inbound) (st : Store) :
  inbound_throws i = false → on_inbound i st = (st, answer i).
Proof.
  destruct i as [socket|e]; [reflexivity|].
  cbn [inbound_throws on_inbound answer]. unfold throws, on_event, pong.
  destruct (String.eqb (event_name e) "disconnect") eqn:Ed.
  - apply String.eqb_eq in Ed. rewrite Ed. reflexivity.
  - destruct (String.eqb (event_name e) "ping"); [|reflexivity].
    unfold listener_arguments.
    destruct (payload e) as [|v rest]; cbn.
    + intros _. destruct (has_callback e); reflexivity.
    + intros ->. destruct (has_callback e); reflexivity.
Qed.

Lemma on_inbound_throws (i : Inbound) (st : Store) :
  inbound_throws i = true →
  on_inbound i st = (st, [Uncaught "TypeError: callback is not a function"]).
Proof.
  destruct i as [socket|e]; [discriminate|].
  cbn [inbound_throws on_inbound]. unfold throws, on_event.
  destruct (String.eqb (event_name e) "disconnect") eqn:Ed.
  - apply String.eqb_eq in Ed. rewrite Ed. discriminate.
  - destruct (String.eqb (event_name e) "ping"); [|discriminate].
    unfold listener_arguments.
    destruct (payload e) as [|v rest]; cbn; [discriminate|].
    intros ->. reflexivity.
Qed.

Lemma answer_not_crashed (i : Inbound) : crashed (answer i) = false.
Proof.
  destruct i as [socket|e]; [reflexivity|]. cbn [answer]. unfold pong.
  destruct (String.eqb (event_name e) "ping" && has_callback e);
    [|reflexivity].
  destruct (payload e); reflexivity.
Qed.

Lemma server_outputs (before : list Inbound) (rest : list Inbound)
    (st : Store) :
  Forall (fun i => inbound_throws i = false) before →
  snd (server st (before ++ rest)%list)
  = (flat_map answer before ++ snd (server st rest))%list.
Proof.
  intros Hquiet. induction Hquiet as [|i before Hi _ IH]; [reflexivity|].
  cbn [app server flat_map].
  rewrite (on_inbound_answer i st Hi), answer_not_crashed.
  destruct (server st (before ++ rest)%list) as [st2 out2]. cbn in *.
  rewrite IH, app_assoc. reflexivity.
Qed.

(** From its start the server keeps its store, so [/health] goes on
    reporting 0 connected users and 0 active rooms. As long as no [ping]
    carries a truthy value before its callback, the server sends nothing but
    the greeting to each socket that connects and the [pong] to each [ping]
    whose only argument is the callback. The first [ping] with a truthy value
    in front makes the listener call that value: the exception is not caught,
    and nothing that arrives later is answered. *)
Theorem server_only_answers_ping (traffic : list Inbound) :
  fst (server emptyStore traffic) = emptyStore ∧
  health_stats (fst (server emptyStore traffic)) = (0%nat, 0%nat) ∧
  (Forall (fun i => inbound_throws i = false) traffic →
   snd (server emptyStore traffic) = flat_map answer traffic) ∧
  (∀ before i after,
     traffic = (before ++ i :: after)%list →
     Forall (fun i => inbound_throws i = false) before →
     inbound_throws i = true →
     snd (server emptyStore traffic)
     = (flat_map answer before
        ++ [Uncaught "TypeError: callback is not a function"])%list).
Proof.
  rewrite server_store. repeat split.
  - intros Hquiet.
    rewrite <- (app_nil_r traffic), (server_outputs traffic [] _ Hquiet).
    cbn. rewrite !app_nil_r. reflexivity.
  - intros before i after -> Hquiet Hthrows.
    rewrite (server_outputs before (i :: after) _ Hquiet).
    cbn [server]. rewrite (on_inbound_throws i _ Hthrows). reflexivity.
Qed.

Lemma server_only_answers_ping_witness :
  snd (server emptyStore
         [ Connection "socket-a"; Event (Scenario.ping "socket-a");
           Event (Scenario.ping_with_data "socket-a");
           Connection "socket-b"; Event (Scenario.ping "socket-b") ])
  = [ Emit (mkEmission "socket-a" "connected"
              "Socket.IO connection successful");
      Ack "socket-a" "pong";
      Uncaught "TypeError: callback is not a function" ].
Proof.
  destruct (server_only_answers_ping
              [ Connection "socket-a"; Event (Scenario.ping "socket-a");
                Event (Scenario.ping_with_data "socket-a");
                Connection "socket-b"; Event (Scenario.ping "socket-b") ])
    as (_ & _ & _ & Hcrash).
  apply (Hcrash [ Connection "socket-a"; Event (Scenario.ping "socket-a") ]
                (Event (Scenario.ping_with_data "socket-a"))
                [ Connection "socket-b"; Event (Scenario.ping "socket-b") ]);
    [reflexivity|repeat constructor|reflexivity].
Defined.

(** ** The client's listener registry *)

Lemma emit_on_same (event : string) (callback : SocketManager.Listener)
    (d : SocketManager.Data) (m : SocketManager.t) :
  SocketManager.emit event d (SocketManager.on event callback m)
  = (SocketManager.emit event d m ++ SocketManager.invoke d callback)%list.
Proof.
  unfold SocketManager.emit, SocketManager.on. cbn.
  rewrite lookup_insert_eq.
  destruct (SocketManager.listeners m !! event) as [callbacks|]; cbn.
  - rewrite flat_map_app. cbn. rewrite app_nil_r. reflexivity.
  - rewrite app_nil_r. reflexivity.
Qed.

Lemma emit_on_other (event other : string)
    (callback : SocketManager.Listener) (d : SocketManager.Data)
    (m : SocketManager.t) :
  other ≠ event →
  SocketManager.emit other d (SocketManager.on event callback m)
  = SocketManager.emit other d m.
Proof.
  intros Hne. unfold SocketManager.emit, SocketManager.on. cbn.
  rewrite lookup_insert_ne by congruence. reflexivity.
Qed.

Lemma indexOf_None (f : nat) (callbacks : list SocketManager.Listener) :
  SocketManager.indexOf f callbacks = None ↔
  SocketManager.Plain f ∉ callbacks.
Proof.
  induction callbacks as [|c rest IH]; cbn.
  - split; [intros _; apply not_elem_of_nil|reflexivity].
  - rewrite not_elem_of_cons.
    destruct c as [g|g|g];
      try (destruct (SocketManager.indexOf f rest); cbn;
           [split; [discriminate|intros [_ H]; apply IH in H; discriminate]
           |split; [intros _; split; [discriminate|apply IH; reflexivity]
                   |reflexivity]]).
    destruct (f =? g)%nat eqn:E.
    + apply Nat.eqb_eq in E. subst g.
      split; [discriminate|intros [H _]; congruence].
    + apply Nat.eqb_neq in E.
      destruct (SocketManager.indexOf f rest); cbn.
      * split; [discriminate|intros [_ H]; apply IH in H; discriminate].
      * split; [|reflexivity]. intros _. split; [congruence|].
        apply IH. reflexivity.
Qed.

Lemma indexOf_Some (f : nat) (callbacks : list SocketManager.Listener)
    (index : nat) :
  SocketManager.indexOf f callbacks = Some index →
  ∃ before after,
    callbacks = (before ++ SocketManager.Plain f :: after)%list ∧
    (SocketManager.Plain f ∉ before) ∧
    delete index callbacks = (before ++ after)%list.
Proof.
  revert index. induction callbacks as [|c rest IH]; intros index; cbn.
  - discriminate.
  - assert (Hrest : (S <$> SocketManager.indexOf f rest) = Some index →
                    c ≠ SocketManager.Plain f →
                    ∃ before after,
                      c :: rest
                      = (before ++ SocketManager.Plain f :: after)%list ∧
                      (SocketManager.Plain f ∉ before) ∧
                      delete index (c :: rest) = (before ++ after)%list).
    { intros H Hc. destruct (SocketManager.indexOf f rest) as [i|];
        [|discriminate].
      injection H as <-. destruct (IH i eq_refl) as (b & a & -> & Hb & Hd).
      exists (c :: b), a. repeat split.
      - apply not_elem_of_cons. split; [congruence|exact Hb].
      - cbn. f_equal. exact Hd. }
    destruct c as [g|g|g]; try (intros H; apply Hrest; [exact H|discriminate]).
    destruct (f =? g)%nat eqn:E.
    + apply Nat.eqb_eq in E. subst g. intros [= <-].
      exists [], rest. repeat split. apply not_elem_of_nil.
    + apply Nat.eqb_neq in E. intros H. apply Hrest; [exact H|congruence].
Qed.

(** Registering a callback with [on] makes the next [emit] of that event
    call it after the callbacks registered before, each with the emitted
    argument; emits of other events are unaffected, and the manager's socket,
    room and user id are untouched. *)
Theorem on_then_emit (event : string) (f : nat) (d : SocketManager.Data)
    (m : SocketManager.t) :
  SocketManager.emit event d (SocketManager.on event (SocketManager.Plain f) m)
  = (SocketManager.emit event d m ++ [SocketManager.Invoke f (Some d)])%list ∧
  (∀ other, other ≠ event →
     SocketManager.emit other d
       (SocketManager.on event (SocketManager.Plain f) m)
     = SocketManager.emit other d m) ∧
  SocketManager.socket (SocketManager.on event (SocketManager.Plain f) m)
  = SocketManager.socket m ∧
  SocketManager.currentRoomId
    (SocketManager.on event (SocketManager.Plain f) m)
  = SocketManager.currentRoomId m.
Proof.
  repeat split.
  - apply emit_on_same.
  - intros other Hne. apply emit_on_other. exact Hne.
Qed.

Lemma first_occurrence_unique {A : Type} (x : A)
    (before1 after1 before2 after2 : list A) :
  (before1 ++ x :: after1)%list = (before2 ++ x :: after2)%list →
  x ∉ before1 → x ∉ before2 →
  before2 = before1 ∧ after2 = after1.
Proof.
  revert before2. induction before1 as [|y before1 IH]; intros before2 Heq H1 H2.
  - destruct before2 as [|z before2]; cbn in Heq.
    + injection Heq as ->. auto.
    + injection Heq as Hz _. subst z.
      exfalso. apply H2. apply elem_of_cons. left. reflexivity.
  - destruct before2 as [|z before2]; cbn in Heq.
    + injection Heq as Hy _. subst y.
      exfalso. apply H1. apply elem_of_cons. left. reflexivity.
    + injection Heq as -> Heq.
      apply not_elem_of_cons in H1. apply not_elem_of_cons in H2.
      destruct (IH before2 Heq (proj2 H1) (proj2 H2)) as [-> ->]. auto.
Qed.

Lemma off_not_registered (event : string) (f : nat) (m : SocketManager.t) :
  (∀ callbacks, SocketManager.listeners m !! event = Some callbacks →
                SocketManager.Plain f ∉ callbacks) →
  SocketManager.off event f m = m.
Proof.
  intros Hnone. unfold SocketManager.off.
  destruct (SocketManager.listeners m !! event) as [callbacks|] eqn:E;
    [|reflexivity].
  specialize (Hnone callbacks eq_refl). apply indexOf_None in Hnone.
  rewrite Hnone. reflexivity.
Qed.

Lemma off_first_registration (event : string) (f : nat) (m : SocketManager.t)
    (before after : list SocketManager.Listener) :
  SocketManager.listeners m !! event
  = Some (before ++ SocketManager.Plain f :: after)%list →
  SocketManager.Plain f ∉ before →
  SocketManager.listeners (SocketManager.off event f m)
  = <[event := (before ++ after)%list]> (SocketManager.listeners m).
Proof.
  intros Hlook Hbefore. unfold SocketManager.off. rewrite Hlook.
  destruct (SocketManager.indexOf f (before ++ SocketManager.Plain f :: after))
    as [index|] eqn:E.
  - destruct (indexOf_Some _ _ _ E) as (b & a & Heq & Hb & Hd).
    cbn. rewrite Hd. f_equal.
    destruct (first_occurrence_unique _ _ _ _ _ Heq Hbefore Hb) as [-> ->].
    reflexivity.
  - apply indexOf_None in E. exfalso. apply E.
    apply elem_of_app. right. apply elem_of_cons. left. reflexivity.
Qed.

(** [off] removes the first registration of the function for the event and
    nothing else: the callbacks before and after it keep their order, a later
    registration of the same function stays, and when the function is not
    registered for the event (or the event has no callbacks) the manager is
    unchanged. *)
Theorem off_removes_first_registration (event : string) (f : nat)
    (m : SocketManager.t) :
  (∀ before after,
      SocketManager.listeners m !! event
      = Some (before ++ SocketManager.Plain f :: after)%list →
      SocketManager.Plain f ∉ before →
      SocketManager.listeners (SocketManager.off event f m)
      = <[event := (before ++ after)%list]> (SocketManager.listeners m)) ∧
  ((∀ callbacks, SocketManager.listeners m !! event = Some callbacks →
                 SocketManager.Plain f ∉ callbacks) →
   SocketManager.off event f m = m).
Proof.
  split.
  - intros before after. apply off_first_registration.
  - apply off_not_registered.
Qed.

(** [off] undoes [on] for a function that was not registered for the event
    before: every later [emit], of any event, makes the same calls as if
    neither had happened. *)
Theorem on_off_round_trip (event : string) (f : nat) (m : SocketManager.t) :
  (∀ callbacks, SocketManager.listeners m !! event = Some callbacks →
                SocketManager.Plain f ∉ callbacks) →
  ∀ (other : string) (d : SocketManager.Data),
    SocketManager.emit other d
      (SocketManager.off event f
         (SocketManager.on event (SocketManager.Plain f) m))
    = SocketManager.emit other d m.
Proof.
  intros Hfresh other d.
  set (callbacks := default [] (SocketManager.listeners m !! event)).
  assert (Hnot : SocketManager.Plain f ∉ callbacks).
  { unfold callbacks.
    destruct (SocketManager.listeners m !! event) as [l|] eqn:E; cbn.
    - apply Hfresh. reflexivity.
    - apply not_elem_of_nil. }
  pose proof (off_first_registration event f
                (SocketManager.on event (SocketManager.Plain f) m)
                callbacks []) as Hoff.
  unfold SocketManager.emit. rewrite Hoff.
  - cbn. rewrite insert_insert_eq, app_nil_r.
    destruct (decide (other = event)) as [->|Hne].
    + rewrite lookup_insert_eq. unfold callbacks.
      destruct (SocketManager.listeners m !! event); reflexivity.
    + rewrite lookup_insert_ne by congruence. reflexivity.
  - cbn. apply lookup_insert_eq.
  - exact Hnot.
Qed.

Lemma on_off_round_trip_witness :
  SocketManager.emit "message" (SocketManager.Object "hello")
    (SocketManager.off "message" 7
       (SocketManager.on "message" (SocketManager.Plain 7)
          (SocketManager.on "message" (SocketManager.Plain 3)
             SocketManager.initial)))
  = [SocketManager.Invoke 3 (Some (SocketManager.Object "hello"))].
Proof.
  rewrite (on_off_round_trip "message" 7
             (SocketManager.on "message" (SocketManager.Plain 3)
                SocketManager.initial)).
  - reflexivity.
  - intros callbacks Hlook. cbn in Hlook. rewrite lookup_insert_eq in Hlook.
    injection Hlook as <-. intros Hin.
    apply list_elem_of_singleton in Hin. discriminate.
Defined.

(** ** The client's connection, room and user id *)


(** After [disconnect] the manager is silent: no socket event reaches a
    callback (every listener is gone), [joinRoom] and [sendMessage] throw,
    [leaveRoom] and [updateNickname] send nothing, the current room is
    forgotten and the user id is kept. *)
Theorem disconnect_silences (m : SocketManager.t) :
  let m' := fst (SocketManager.disconnect m) in
  (∀ socket_event d, SocketManager.on_socket_event socket_event d m' = []) ∧
  (∀ event d, SocketManager.emit event d m' = []) ∧
  (∀ roomId line nick,
      SocketManager.joinRoom roomId line nick m'
      = SocketManager.Throw "Socket not connected") ∧
  (∀ id text nick now roomId,
      SocketManager.sendMessage id text nick now roomId m'
      = SocketManager.Throw "Socket not connected") ∧
  (∀ roomId, SocketManager.leaveRoom roomId m' = (m', [])) ∧
  (∀ nick, SocketManager.updateNickname nick m' = []) ∧
  SocketManager.currentRoomId m' = None ∧
  SocketManager.currentUserId m' = SocketManager.currentUserId m.
Proof.
  cbn. repeat split.
  - intros socket_event d. unfold SocketManager.on_socket_event.
    destruct (SocketManager.forwarded socket_event d) as [[event argument]|];
      reflexivity.
Qed.

(** On a connected socket, [joinRoom] records the room and sends [joinRoom]
    with [trainId] equal to [roomId]; a following [leaveRoom()] without
    argument sends [leaveRoom] for that room and forgets it, and a second
    [leaveRoom()] sends nothing. The listeners are untouched throughout. *)
Theorem join_leave_round_trip (roomId line nick : string)
    (m : SocketManager.t) :
  SocketManager.isConnected m = true →
  roomId ≠ "" →
  let left := SocketManager.with_room m None in
  SocketManager.joinRoom roomId line nick m
  = SocketManager.Ok
      (SocketManager.with_room m (Some roomId),
       [SocketManager.JoinRoom roomId roomId line nick]) ∧
  SocketManager.leaveRoom None (SocketManager.with_room m (Some roomId))
  = (left, [SocketManager.LeaveRoom roomId]) ∧
  SocketManager.leaveRoom None left = (left, []) ∧
  SocketManager.listeners left = SocketManager.listeners m.
Proof.
  intros Hconnected Hroom.
  assert (Heqb : String.eqb roomId "" = false)
    by (apply String.eqb_neq; exact Hroom).
  unfold SocketManager.joinRoom, SocketManager.leaveRoom,
    SocketManager.isConnected in *. cbn.
  rewrite Hconnected, Heqb. auto.
Qed.

Lemma join_leave_round_trip_witness :
  let m := {| SocketManager.socket := Some true;
              SocketManager.listeners := ∅;
              SocketManager.currentRoomId := None;
              SocketManager.currentUserId := Some "user_1" |} in
  SocketManager.leaveRoom None (SocketManager.with_room m (Some "train_JR"))
  = (SocketManager.with_room m None, [SocketManager.LeaveRoom "train_JR"]).
Proof.
  apply (join_leave_round_trip "train_JR" "JR" "taro"); [reflexivity|].
  discriminate.
Defined.

(** [handleExit] of the chat screen sends [leaveRoom] for the route's
    [roomId] when the socket is connected, and nothing otherwise; it does not
    send [leaveRoom] for a different room the manager had joined; afterwards
    the manager has no socket, no listener and no current room. *)
Theorem handleExit_leaves_route_room (roomId : string) (m : SocketManager.t) :
  let out := ChatScreen.handleExit roomId m in
  fst out
  = {| SocketManager.socket := None; SocketManager.listeners := ∅;
       SocketManager.currentRoomId := None;
       SocketManager.currentUserId := SocketManager.currentUserId m |} ∧
  (SocketManager.isConnected m = false → snd out = []) ∧
  (SocketManager.isConnected m = true → roomId ≠ "" →
   snd out = [SocketManager.LeaveRoom roomId]) ∧
  (∀ joined, SocketManager.currentRoomId m = Some joined → joined ≠ roomId →
             roomId ≠ "" → SocketManager.LeaveRoom joined ∉ snd out).
Proof.
  unfold ChatScreen.handleExit, SocketManager.leaveRoom. cbn zeta.
  destruct (SocketManager.isConnected m) eqn:Hc; cbn.
  - destruct (String.eqb roomId "") eqn:E; cbn.
    + apply String.eqb_eq in E. subst roomId.
      destruct (SocketManager.nonempty (SocketManager.currentRoomId m));
        cbn; repeat split; try congruence.
    + repeat split; try congruence.
      intros joined _ Hne _ Hin. apply list_elem_of_singleton in Hin.
      congruence.
  - repeat split; try congruence. intros joined _ _ _. apply not_elem_of_nil.
Qed.

Lemma stored_spec (key generated : string) (storage : gmap string string) :
  generated ≠ "" →
  let out := SocketManager.stored key generated storage in
  fst out ≠ "" ∧
  snd out !! key = Some (fst out) ∧
  (∀ other, other ≠ key → snd out !! other = storage !! other).
Proof.
  intros Hgen. unfold SocketManager.stored.
  destruct (storage !! key) as [value|] eqn:E.
  - destruct (String.eqb value "") eqn:Hv; cbn.
    + repeat split; [exact Hgen|apply lookup_insert_eq|].
      intros other Hne. apply lookup_insert_ne. congruence.
    + apply String.eqb_neq in Hv. repeat split; auto.
  - cbn. repeat split; [exact Hgen|apply lookup_insert_eq|].
    intros other Hne. apply lookup_insert_ne. congruence.
Qed.

Lemma stored_hit (key generated value : string)
    (storage : gmap string string) :
  storage !! key = Some value → value ≠ "" →
  SocketManager.stored key generated storage = (value, storage).
Proof.
  intros Hlook Hne. unfold SocketManager.stored. rewrite Hlook.
  apply String.eqb_neq in Hne. rewrite Hne. reflexivity.
Qed.

(** The user id is stable: once [getUserId] has run, every later call on the
    storage it left returns the same id and leaves the storage as it is,
    whatever the clock and [Math.random()] would generate, on a development
    build as on a production build; the id is never empty. [connect] on a
    socket that is not connected therefore keeps [currentUserId], and it keeps
    the listeners and the current room as well. *)
Theorem getUserId_stable (development : bool)
    (user1 session1 user2 session2 : string) (storage : gmap string string)
    (m : SocketManager.t) :
  let first := SocketManager.getUserId development user1 session1 storage in
  SocketManager.getUserId development user2 session2 (snd first) = first ∧
  fst first ≠ "" ∧
  (SocketManager.isConnected m = false →
   let once := SocketManager.connect development user1 session1 storage m in
   let twice :=
     SocketManager.connect development user2 session2 (snd once) (fst once) in
   SocketManager.currentUserId (fst twice) = Some (fst first) ∧
   SocketManager.currentUserId (fst once) = Some (fst first) ∧
   snd twice = snd once ∧
   SocketManager.listeners (fst twice) = SocketManager.listeners m ∧
   SocketManager.currentRoomId (fst twice) = SocketManager.currentRoomId m).
Proof.
  assert (Hu : ∀ x, "user_" ++ x ≠ "") by (intros x; discriminate).
  assert (Hs : ∀ x, "session_" ++ x ≠ "") by (intros x; discriminate).
  assert (Hstable :
    SocketManager.getUserId development user2 session2
      (snd (SocketManager.getUserId development user1 session1 storage))
    = SocketManager.getUserId development user1 session1 storage
    ∧ fst (SocketManager.getUserId development user1 session1 storage) ≠ "").
  { unfold SocketManager.getUserId.
    pose proof (stored_spec "userId" ("user_" ++ user1) storage (Hu user1))
      as (Hne1 & Hlook1 & _).
    destruct (SocketManager.stored "userId" ("user_" ++ user1) storage)
      as [userId storage1]. cbn [fst snd] in *.
    destruct development.
    - pose proof (stored_spec "sessionId" ("session_" ++ session1) storage1
                    (Hs session1)) as (Hne2 & Hlook2 & Hother2).
      destruct (SocketManager.stored "sessionId" ("session_" ++ session1)
                  storage1) as [sessionId storage2]. cbn [fst snd] in *.
      rewrite (stored_hit "userId" _ userId storage2);
        [|rewrite Hother2 by discriminate; exact Hlook1|exact Hne1].
      rewrite (stored_hit "sessionId" _ sessionId storage2 Hlook2 Hne2).
      split; [reflexivity|].
      destruct userId; [congruence|discriminate].
    - rewrite (stored_hit "userId" _ userId storage1 Hlook1 Hne1).
      split; [reflexivity|exact Hne1]. }
  destruct Hstable as [Hagain Hne]. cbn zeta.
  split; [exact Hagain|]. split; [exact Hne|].
  intros Hoff. unfold SocketManager.connect. rewrite Hoff.
  destruct (SocketManager.getUserId development user1 session1 storage)
    as [userId storage1] eqn:E.
  cbn [fst snd] in *. unfold SocketManager.isConnected.
  cbn [SocketManager.socket]. rewrite Hagain. cbn. auto.
Qed.

(** ** Trimmed text: the nickname form and the chat input *)

Lemma trimStart_split (s : list N) :
  ∃ spaces, s = (spaces ++ Str.trimStart s)%list ∧
            Forall (fun c => Str.isWhiteSpace c = true) spaces.
Proof.
  induction s as [|c rest IH]; cbn.
  - exists []. split; [reflexivity|constructor].
  - destruct (Str.isWhiteSpace c) eqn:E.
    + destruct IH as (spaces & Heq & Hall). exists (c :: spaces).
      split; [cbn; rewrite <- Heq; reflexivity|constructor; assumption].
    + exists []. split; [reflexivity|constructor].
Qed.

Lemma trimStart_head (s : list N) :
  match Str.trimStart s with
  | c :: _ => Str.isWhiteSpace c = false
  | [] => True
  end.
Proof.
  induction s as [|c rest IH]; cbn; [exact I|].
  destruct (Str.isWhiteSpace c) eqn:E; [exact IH|exact E].
Qed.

Lemma trimStart_fixed (s : list N) :
  match s with c :: _ => Str.isWhiteSpace c = false | [] => True end →
  Str.trimStart s = s.
Proof.
  destruct s as [|c rest]; cbn; [reflexivity|]. intros ->. reflexivity.
Qed.

Lemma trimEnd_split (s : list N) :
  ∃ spaces, s = (Str.trimEnd s ++ spaces)%list ∧
            Forall (fun c => Str.isWhiteSpace c = true) spaces.
Proof.
  unfold Str.trimEnd.
  destruct (trimStart_split (rev s)) as (spaces & Heq & Hall).
  exists (rev spaces). split.
  - rewrite <- rev_app_distr, <- Heq, rev_involutive. reflexivity.
  - apply Forall_forall. intros c Hin. rewrite Forall_forall in Hall.
    apply Hall. apply list_elem_of_In. apply in_rev.
    apply list_elem_of_In. exact Hin.
Qed.

Lemma trimEnd_last (s : list N) (c : N) :
  List.last (Str.trimEnd s) c = c ∨
  Str.isWhiteSpace (List.last (Str.trimEnd s) c) = false.
Proof.
  unfold Str.trimEnd. pose proof (trimStart_head (rev s)) as H.
  destruct (Str.trimStart (rev s)) as [|x rest]; cbn.
  - left. reflexivity.
  - right. rewrite last_last. exact H.
Qed.

Lemma trimEnd_fixed (s : list N) :
  (∀ c, Str.isWhiteSpace (List.last s c) = false ∨ s = []) →
  Str.trimEnd s = s.
Proof.
  intros H. unfold Str.trimEnd.
  destruct (rev s) as [|x rest] eqn:E.
  - apply (f_equal (@rev N)) in E. rewrite rev_involutive in E. subst s.
    reflexivity.
  - assert (Hs : s = (rev rest ++ [x])%list).
    { apply (f_equal (@rev N)) in E. rewrite rev_involutive in E. exact E. }
    destruct (H x) as [Hx|Hnil].
    + rewrite Hs, last_last in Hx. cbn. rewrite Hx. cbn. symmetry. exact Hs.
    + subst s. destruct (rev rest); discriminate.
Qed.

Lemma trim_length (s : list N) : (length (Str.trim s) <= length s)%nat.
Proof.
  unfold Str.trim.
  destruct (trimStart_split s) as (a & Ha & _).
  destruct (trimEnd_split (Str.trimStart s)) as (b & Hb & _).
  rewrite Ha at 2. rewrite Hb at 2. rewrite !length_app. lia.
Qed.

(** What [trim] returns neither starts nor ends with white space. *)
Lemma trim_ends (s : list N) :
  match Str.trim s with
  | c :: _ =>
      Str.isWhiteSpace c = false ∧
      Str.isWhiteSpace (List.last (Str.trim s) c) = false
  | [] => True
  end.
Proof.
  unfold Str.trim.
  destruct (trimEnd_split (Str.trimStart s)) as (spaces & Heq & _).
  pose proof (trimStart_head s) as Hhead.
  destruct (Str.trimEnd (Str.trimStart s)) as [|c rest] eqn:E; [exact I|].
  assert (Hc : Str.isWhiteSpace c = false).
  { rewrite Heq in Hhead. exact Hhead. }
  split; [exact Hc|].
  destruct (trimEnd_last (Str.trimStart s) c) as [H|H]; rewrite E in H.
  - rewrite H. exact Hc.
  - exact H.
Qed.

Lemma last_nonempty {A : Type} (c : A) (rest : list A) (d1 d2 : A) :
  List.last (c :: rest) d1 = List.last (c :: rest) d2.
Proof.
  revert c. induction rest as [|y rest IH]; intros c; [reflexivity|].
  change (List.last (y :: rest) d1 = List.last (y :: rest) d2). apply IH.
Qed.

Lemma trim_idempotent (s : list N) : Str.trim (Str.trim s) = Str.trim s.
Proof.
  pose proof (trim_ends s) as H.
  destruct (Str.trim s) as [|c rest] eqn:E; [reflexivity|].
  destruct H as [Hhead Hlast]. unfold Str.trim.
  rewrite (trimStart_fixed (c :: rest)) by exact Hhead.
  apply trimEnd_fixed. intros x. left.
  rewrite (last_nonempty c rest x c). exact Hlast.
Qed.

(** The nickname form stores a nickname exactly when the button is enabled
    ([isValid]) and the storage accepts it; what it stores is the trimmed
    input: between 1 and 20 code units, without white space at either end,
    and unchanged by trimming again. When [isValid] is false it alerts and
    stores nothing. *)
Theorem handleSubmit_stores_valid_trimmed (nickname : list N) (ok : bool) :
  (NicknameScreen.isValid nickname && ok = true ↔
   NicknameScreen.handleSubmit nickname ok
   = NicknameScreen.SavedAndNavigated (Str.trim nickname)) ∧
  (∀ stored,
      NicknameScreen.handleSubmit nickname ok
      = NicknameScreen.SavedAndNavigated stored →
      stored = Str.trim nickname ∧
      (1 <= length stored <= 20)%nat ∧
      Str.trim stored = stored ∧
      match stored with
      | c :: _ =>
          Str.isWhiteSpace c = false ∧
          Str.isWhiteSpace (List.last stored c) = false
      | [] => False
      end).
Proof.
  unfold NicknameScreen.handleSubmit, NicknameScreen.isValid. cbn zeta.
  pose proof (trim_ends nickname) as Hends.
  pose proof (trim_idempotent nickname) as Hidem.
  destruct (length (Str.trim nickname) =? 0)%nat eqn:E0.
  - apply Nat.eqb_eq in E0.
    assert (H0 : (0 <? length (Str.trim nickname))%nat = false)
      by (apply Nat.ltb_ge; lia).
    rewrite H0. cbn. split; [split; discriminate|discriminate].
  - apply Nat.eqb_neq in E0.
    assert (H0 : (0 <? length (Str.trim nickname))%nat = true)
      by (apply Nat.ltb_lt; lia).
    rewrite H0. cbn [andb].
    destruct (20 <? length (Str.trim nickname))%nat eqn:E20.
    + apply Nat.ltb_lt in E20.
      assert (H20 : (length (Str.trim nickname) <=? 20)%nat = false)
        by (apply Nat.leb_gt; lia).
      rewrite H20. cbn. split; [split; discriminate|discriminate].
    + apply Nat.ltb_ge in E20.
      assert (H20 : (length (Str.trim nickname) <=? 20)%nat = true)
        by (apply Nat.leb_le; lia).
      rewrite H20. cbn [andb]. destruct ok.
      * split; [split; reflexivity|]. intros stored [= <-].
        repeat split; try lia; try exact Hidem.
        destruct (Str.trim nickname); [cbn in E0; lia|exact Hends].
      * split; [split; discriminate|discriminate].
Qed.

(** An input of at most 20 code units, which is what the field's
    [maxLength] allows, never triggers the too-long alert. *)
Theorem handleSubmit_never_too_long (nickname : list N) (ok : bool) :
  (length nickname <= 20)%nat →
  NicknameScreen.handleSubmit nickname ok ≠ NicknameScreen.AlertTooLong.
Proof.
  intros Hlen. unfold NicknameScreen.handleSubmit. cbn zeta.
  pose proof (trim_length nickname) as Htrim.
  destruct (length (Str.trim nickname) =? 0)%nat; [discriminate|].
  assert (H20 : (20 <? length (Str.trim nickname))%nat = false)
    by (apply Nat.ltb_ge; lia).
  rewrite H20. destruct ok; discriminate.
Qed.

Lemma handleSubmit_never_too_long_witness :
  NicknameScreen.handleSubmit [32; 116; 97; 114; 111; 32]%N true
  ≠ NicknameScreen.AlertTooLong.
Proof.
  apply handleSubmit_never_too_long. cbn. lia.
Defined.

(** ** The chat screen: who is online, what is sent *)

Lemma find_user_None (userId : string) (users : list (string * string)) :
  List.find (fun user => String.eqb (fst user) userId) users = None ↔
  userId ∉ map fst users.
Proof.
  induction users as [|[uid nick] rest IH]; cbn.
  - split; [intros _; apply not_elem_of_nil|reflexivity].
  - rewrite not_elem_of_cons. destruct (String.eqb uid userId) eqn:E.
    + apply String.eqb_eq in E. subst uid.
      split; [discriminate|intros [H _]; congruence].
    + apply String.eqb_neq in E. rewrite IH.
      split; [intros H; split; [congruence|exact H]|intros [_ H]; exact H].
Qed.

Lemma userLeft_ids (userId : string) (users : list (string * string)) :
  map fst (ChatScreen.userLeft userId users)
  = filter (fun uid => uid ≠ userId) (map fst users).
Proof.
  unfold ChatScreen.userLeft.
  induction users as [|[uid nick] rest IH]; [reflexivity|].
  cbn [List.filter map fst]. rewrite filter_cons.
  destruct (String.eqb uid userId) eqn:E; cbn [negb].
  - apply String.eqb_eq in E.
    rewrite decide_False by (intros H; apply H; exact E). exact IH.
  - apply String.eqb_neq in E.
    rewrite decide_True by exact E. cbn [map fst]. rewrite IH. reflexivity.
Qed.

Lemma userLeft_absent (userId : string) (users : list (string * string)) :
  userId ∉ map fst users → ChatScreen.userLeft userId users = users.
Proof.
  unfold ChatScreen.userLeft.
  induction users as [|[uid nick] rest IH]; cbn; [reflexivity|].
  intros Hnot. apply not_elem_of_cons in Hnot. destruct Hnot as [Hne Hrest].
  assert (E : String.eqb uid userId = false)
    by (apply String.eqb_neq; congruence).
  rewrite E. cbn. rewrite (IH Hrest). reflexivity.
Qed.

Lemma presence_unique_step (users : list (string * string))
    (e : ChatScreen.Presence) :
  NoDup (map fst users) → NoDup (map fst (ChatScreen.presence users e)).
Proof.
  intros Hnodup. destruct e as [userId nick|userId]; cbn.
  - unfold ChatScreen.userJoined.
    destruct (List.find _ users) eqn:E; [exact Hnodup|].
    apply find_user_None in E. rewrite map_app. cbn.
    apply NoDup_app. repeat split.
    + exact Hnodup.
    + intros x Hin Hx. apply list_elem_of_singleton in Hx. subst x.
      contradiction.
    + apply NoDup_singleton.
  - rewrite userLeft_ids. apply NoDup_filter. exact Hnodup.
Qed.

(** The [userJoined] and [userLeft] listeners keep the ids of [onlineUsers]
    free of duplicates, whatever sequence of notifications arrives. *)
Theorem onlineUsers_ids_stay_unique (events : list ChatScreen.Presence)
    (users : list (string * string)) :
  NoDup (map fst users) →
  NoDup (map fst (fold_left ChatScreen.presence events users)).
Proof.
  revert users. induction events as [|e rest IH]; intros users Hnodup.
  - exact Hnodup.
  - cbn. apply IH. apply presence_unique_step. exact Hnodup.
Qed.

Lemma onlineUsers_ids_stay_unique_witness :
  NoDup (map fst
           (fold_left ChatScreen.presence
              [ ChatScreen.Joined "u1" "Alice"; ChatScreen.Joined "u1" "Al";
                ChatScreen.Joined "u2" "Bob"; ChatScreen.Left "u1" ]
              (ChatScreen.roomUpdate None))).
Proof.
  apply onlineUsers_ids_stay_unique. cbn. apply NoDup_nil. exact I.
Defined.

(** A [userJoined] for a user who is already listed changes nothing, not
    even the nickname; for a new user it appends the user, and a [userLeft]
    for that user then restores the list; after [userLeft] the user is not
    listed, after [userJoined] the user is. *)
Theorem onlineUsers_join_leave (userId nick : string)
    (users : list (string * string)) :
  (userId ∈ map fst users → ChatScreen.userJoined userId nick users = users) ∧
  (userId ∉ map fst users →
   ChatScreen.userJoined userId nick users
   = (users ++ [(userId, nick)])%list ∧
   ChatScreen.userLeft userId (ChatScreen.userJoined userId nick users)
   = users) ∧
  (∀ other, ChatScreen.userJoined userId other
              (ChatScreen.userJoined userId nick users)
            = ChatScreen.userJoined userId nick users) ∧
  (userId ∉ map fst (ChatScreen.userLeft userId users)) ∧
  userId ∈ map fst (ChatScreen.userJoined userId nick users).
Proof.
  assert (Hjoined : userId ∈ map fst (ChatScreen.userJoined userId nick users)).
  { unfold ChatScreen.userJoined.
    destruct (List.find _ users) eqn:E.
    - destruct (decide (userId ∈ map fst users)) as [Hin|Hnot]; [exact Hin|].
      apply find_user_None in Hnot. congruence.
    - rewrite map_app. apply elem_of_app. right. cbn.
      apply list_elem_of_singleton. reflexivity. }
  assert (Hpresent : ∀ n l, userId ∈ map fst l →
                            ChatScreen.userJoined userId n l = l).
  { intros n l Hin. unfold ChatScreen.userJoined.
    destruct (List.find _ l) eqn:E; [reflexivity|].
    apply find_user_None in E. contradiction. }
  split; [apply Hpresent|].
  split; [|split; [|split]].
  - intros Hnot. pose proof Hnot as Hfind. apply find_user_None in Hfind.
    unfold ChatScreen.userJoined. rewrite Hfind. split; [reflexivity|].
    unfold ChatScreen.userLeft. rewrite List.filter_app. cbn.
    rewrite String.eqb_refl. cbn. rewrite app_nil_r.
    apply (userLeft_absent userId users Hnot).
  - intros other. apply Hpresent. exact Hjoined.
  - rewrite userLeft_ids. intros Hin. apply list_elem_of_filter in Hin.
    destruct Hin as [Hne _]. congruence.
  - exact Hjoined.
Qed.

(** The header shows at most three chips, the first users in order, and the
    [+n] label counts exactly the users without a chip; the label is absent
    exactly when at most three users are online. *)
Theorem chips_account_for_everyone (users : list (string * string)) :
  (length (fst (ChatScreen.chips users)) <= 3)%nat ∧
  (length (fst (ChatScreen.chips users))
   + default 0%nat (snd (ChatScreen.chips users)) = length users)%nat ∧
  (∃ rest, users = (fst (ChatScreen.chips users) ++ rest)%list) ∧
  (snd (ChatScreen.chips users) = None ↔ (length users <= 3)%nat) ∧
  (∀ n, snd (ChatScreen.chips users) = Some n → (0 < n)%nat).
Proof.
  unfold ChatScreen.chips. cbn [fst snd]. rewrite length_take.
  assert (Hprefix : ∃ rest, users = (take 3 users ++ rest)%list)
    by (exists (drop 3 users); symmetry; apply take_drop).
  destruct (3 <? length users)%nat eqn:E.
  - apply Nat.ltb_lt in E. cbn [default].
    split; [lia|]. split; [unfold Datatypes.id; lia|]. split; [exact Hprefix|].
    split; [split; [discriminate|lia]|]. intros n [= <-]. lia.
  - apply Nat.ltb_ge in E. cbn [default].
    split; [lia|]. split; [unfold Datatypes.id; lia|]. split; [exact Hprefix|].
    split; [split; [intros _; exact E|reflexivity]|]. discriminate.
Qed.

(** [sendMessage] of the chat screen does nothing when the trimmed input is
    empty or the screen believes it is offline. Otherwise it appends the own
    message, carrying the trimmed text, to the list and clears the input,
    and only then hands the message to the manager: with a connected socket
    exactly one [sendMessage] goes out, to the manager's current room if it
    has one and to the route's room otherwise; with a socket that is not
    connected the manager throws and the message stays displayed although
    nothing was sent. Earlier messages are never changed. *)
Theorem sendMessage_local_echo (roomId nick : string) (now : Z)
    (now_id : string) (st : ChatScreen.t) (m : SocketManager.t) :
  let out := ChatScreen.sendMessage roomId nick now now_id st m in
  let trimmed := Str.trim (ChatScreen.inputText st) in
  (trimmed = [] ∨ ChatScreen.isConnected st = false →
   out = (st, SocketManager.Ok [])) ∧
  (trimmed ≠ [] → ChatScreen.isConnected st = true →
   ChatScreen.messages (fst out)
   = (ChatScreen.messages st
      ++ [ChatScreen.mkMessage now_id trimmed "self" nick now true false])%list
   ∧ ChatScreen.inputText (fst out) = []
   ∧ (SocketManager.isConnected m = true →
      snd out
      = SocketManager.Ok
          [SocketManager.SendMessage
             (default roomId
                (SocketManager.nonempty (SocketManager.currentRoomId m)))
             trimmed nick now])
   ∧ (SocketManager.isConnected m = false →
      snd out = SocketManager.Throw "Socket not connected")) ∧
  (∃ added, ChatScreen.messages (fst out)
            = (ChatScreen.messages st ++ added)%list).
Proof.
  unfold ChatScreen.sendMessage. cbn zeta.
  destruct (Str.trim (ChatScreen.inputText st)) as [|c rest] eqn:E;
    cbn [length Nat.eqb orb].
  - split; [intros _; reflexivity|]. split; [intros H; congruence|].
    exists []. cbn. rewrite app_nil_r. reflexivity.
  - destruct (ChatScreen.isConnected st) eqn:Hc; cbn [negb fst snd].
    + split; [intros [H|H]; discriminate|]. split.
      * intros _ _. cbn. split; [reflexivity|]. split; [reflexivity|].
        unfold SocketManager.sendMessage.
        split; intros Hm; rewrite Hm; reflexivity.
      * eexists. cbn. reflexivity.
    + split; [intros _; reflexivity|]. split; [intros _ H; discriminate|].
      exists []. cbn. rewrite app_nil_r. reflexivity.
Qed.

(** ** The hook: what a stream of fixes does to the flag and the counter *)

(** Two fixes in a row that are not train-detected clear the on-train flag
    and the line and reset the counter, whatever their speeds and whatever
    the flag was, through the ordinary branch, which schedules no exit
    callback. *)
Theorem two_undetected_fixes_clear (c : Closure) (s : HookState)
    (r1 r2 : Reading) :
  let s1 := fst (successCallback c s r1) in
  let out := successCallback c s1 r2 in
  isTrainDetected c s r1 = false →
  isTrainDetected c s1 r2 = false →
  isOnTrain (fst out) = false ∧ currentLine (fst out) = None ∧
  lowSpeedCount (fst out) = 0%nat ∧ snd out = [].
Proof.
  cbn zeta. intros H1 H2.
  destruct (successCallback_refs c s r1) as (_ & Hprev & _).
  rewrite H1 in Hprev.
  rewrite (second_undetected_fix_clears c _ r2 Hprev H2). cbn. auto.
Qed.

Lemma two_undetected_fixes_clear_witness :
  let s1 := fst (successCallback Scenario.development Scenario.after_fourth_fix
                   (Scenario.sample 5 (20 # 3))) in
  isOnTrain s1 = true ∧
  isOnTrain (fst (successCallback Scenario.development s1
                    (Scenario.sample 6 (20 # 3)))) = false.
Proof.
  split; [reflexivity|].
  apply (two_undetected_fixes_clear Scenario.development
           Scenario.after_fourth_fix (Scenario.sample 5 (20 # 3))
           (Scenario.sample 6 (20 # 3))); reflexivity.
Defined.

Lemma successCallback_counter (c : Closure) (s : HookState) (r : Reading) :
  (captured_lowSpeedCount c < 2)%nat →
  counter_invariant s → counter_invariant (fst (successCallback c s r)).
Proof.
  intros Hc [Hle Hone]. rewrite successCallback_branches.
  unfold counter_invariant.
  assert (Hleb : (2 <=? captured_lowSpeedCount c)%nat = false)
    by (apply Nat.leb_gt; exact Hc).
  rewrite Hleb.
  destruct (previousTrainStatusRef s) eqn:Hprev.
  - assert (Hzero : lowSpeedCount s = 0%nat).
    { destruct (lowSpeedCount s) as [|[|n]]; [reflexivity| |lia].
      specialize (Hone eq_refl). discriminate. }
    rewrite Hzero.
    destruct (isTrainDetected c s r) eqn:Hdet;
      destruct (JS.lt (calculatedSpeed s r) (JS.Fin 15));
      cbn; repeat split; auto; lia.
  - destruct (isTrainDetected c s r) eqn:Hdet; cbn; repeat split; auto; lia.
Qed.

(** On every stream of fixes that starts at mount, with the callback created
    in a render where [lowSpeedCount] was below 2, the counter never exceeds 1
    and no fix schedules the exit callback. *)
Theorem counter_never_exceeds_one (c : Closure) (mountTime : Z)
    (rs : list Reading) :
  (captured_lowSpeedCount c < 2)%nat →
  Forall (fun out => (lowSpeedCount (fst out) <= 1)%nat ∧ snd out = [])
         (run c (initialState mountTime) rs).
Proof.
  intros Hc.
  assert (Hinit : counter_invariant (initialState mountTime)).
  { split; cbn; [lia|discriminate]. }
  pose proof (run_never_exits c rs (initialState mountTime) Hc) as Hexit.
  revert Hinit Hexit. generalize (initialState mountTime).
  induction rs as [|r rest IH]; intros s Hinv Hexit; cbn.
  - constructor.
  - cbn in Hexit. apply Forall_cons in Hexit. destruct Hexit as [Hnil Hrest].
    pose proof (successCallback_counter c s r Hc Hinv) as Hinv'.
    constructor.
    + split; [exact (proj1 Hinv')|exact Hnil].
    + apply IH; assumption.
Qed.

Lemma counter_never_exceeds_one_witness :
  Forall (fun out => (lowSpeedCount (fst out) <= 1)%nat ∧ snd out = [])
         (run Scenario.development (initialState Scenario.mountTime)
              Scenario.ride).
Proof.
  apply counter_never_exceeds_one. cbn. lia.
Defined.


(** ** The console helper [testTrainExit] *)

Lemma walking_speed_below_15 (sample : Q) :
  (sample < 1)%Q → JS.lt (JS.Fin (sample * 8 + 3)) (JS.Fin 15) = true.
Proof.
  intros H. unfold JS.lt. apply Qltb_lt.
  apply Qlt_le_trans with (1 * 8 + 3)%Q; [|discriminate].
  apply Qplus_lt_le_compat; [|apply Qle_refl].
  apply Qmult_lt_compat_r; [reflexivity|exact H].
Qed.

Lemma testTrainExit_tick_walking (onTrainExit : bool) (count : nat)
    (sample : Q) (s : HookState) :
  previousTrainStatusRef s = true → (sample < 1)%Q →
  DevTools.testTrainExit_tick onTrainExit count sample s =
  if (3 <=? count)%nat then
    ({| isOnTrain := false; currentLine := None;
        speed := JS.Fin (sample * 8 + 3); lowSpeedCount := 0;
        previousTrainStatusRef := true;
        previousLocationRef := previousLocationRef s;
        lastUpdateRef := lastUpdateRef s |},
     if onTrainExit then [OnTrainExit] else [], true)
  else
    ({| isOnTrain := isOnTrain s; currentLine := currentLine s;
        speed := JS.Fin (sample * 8 + 3); lowSpeedCount := (count - 1)%nat;
        previousTrainStatusRef := true;
        previousLocationRef := previousLocationRef s;
        lastUpdateRef := lastUpdateRef s |}, [], false).
Proof.
  intros Hprev Hsample. unfold DevTools.testTrainExit_tick. cbv zeta.
  rewrite Hprev, (walking_speed_below_15 sample Hsample). reflexivity.
Qed.

(** [testTrainExit] counts its own ticks: when no position fix arrives in
    between, with [Math.random()] samples below 1 the simulated speeds are
    all below 15 km/h, the first two ticks keep
    the flag and show the counter at 0 and 1, and the third tick clears the
    flag and the line, resets the counter, schedules the exit callback once
    (if one was passed to the hook) and stops the interval. *)
Theorem testTrainExit_exits_at_third_tick (onTrainExit : bool)
    (x1 x2 x3 : Q) (more : list Q) (s : HookState) :
  (x1 < 1)%Q → (x2 < 1)%Q → (x3 < 1)%Q →
  let trace := DevTools.testTrainExit onTrainExit (x1 :: x2 :: x3 :: more) s in
  map snd trace = [ []; []; if onTrainExit then [OnTrainExit] else [] ] ∧
  map (fun out => (isOnTrain (fst out), lowSpeedCount (fst out))) trace
  = [ (true, 0%nat); (true, 1%nat); (false, 0%nat) ] ∧
  currentLine (final s trace) = None.
Proof.
  intros H1 H2 H3. cbn zeta.
  unfold DevTools.testTrainExit, DevTools.testTrainExit_start.
  cbn [DevTools.testTrainExit_ticks].
  rewrite (testTrainExit_tick_walking onTrainExit 1 x1)
    by (reflexivity || exact H1).
  cbn [Nat.leb].
  rewrite (testTrainExit_tick_walking onTrainExit 2 x2)
    by (reflexivity || exact H2).
  cbn [Nat.leb].
  rewrite (testTrainExit_tick_walking onTrainExit 3 x3)
    by (reflexivity || exact H3).
  cbn. auto.
Qed.

Lemma testTrainExit_exits_at_third_tick_witness :
  map snd (DevTools.testTrainExit true [1 # 2; 0 # 1; 9 # 10; 1 # 3]
             (initialState Scenario.mountTime))
  = [ []; []; [OnTrainExit] ].
Proof.
  apply (testTrainExit_exits_at_third_tick true (1 # 2) (0 # 1) (9 # 10)
           [1 # 3]);
    reflexivity.
Defined.

(** ** What the detection screen displays and joins *)

Lemma Math_round_ge (v : JS.number) (n : Z) :
  JS.ge v (JS.Fin (inject_Z n)) = true →
  JS.ge (Display.Math_round v) (JS.Fin (inject_Z n)) = true.
Proof.
  destruct v as [| | |q]; [cbn; congruence..|].
  unfold JS.ge, JS.le, Display.Math_round.
  intros H. apply Qle_bool_iff in H. apply Qle_bool_iff.
  rewrite <- Zle_Qle. rewrite <- (Qfloor_Z n) at 1. apply Qfloor_resp_le.
  apply Qle_trans with q; [exact H|].
  rewrite <- (Qplus_0_r q) at 1. apply Qplus_le_compat; [apply Qle_refl|].
  discriminate.
Qed.

Lemma ge_weaken (v : JS.number) (a b : Q) :
  (b <= a)%Q → JS.ge v (JS.Fin a) = true → JS.ge v (JS.Fin b) = true.
Proof.
  intros Hba. destruct v as [| | |q]; cbn; try congruence.
  intros H. apply Qle_bool_iff in H. apply Qle_bool_iff.
  apply Qle_trans with a; assumption.
Qed.

Lemma gt_ge (v : JS.number) (a b : Q) :
  (b <= a)%Q → JS.gt v (JS.Fin a) = true → JS.ge v (JS.Fin b) = true.
Proof.
  intros Hba. destruct v as [| | |q]; cbn; try congruence.
  intros H. apply Qltb_lt in H. apply Qle_bool_iff.
  apply Qle_trans with a; [exact Hba|apply Qlt_le_weak; exact H].
Qed.

(** When a fix turns the on-train flag on, the screen's movement label
    agrees with it on a development build: the rounded speed shown is at
    least 30, so the label is the train label and the colour the success
    colour. On a production build the speed is only known to exceed 20, and
    the label is the train label or the vehicle label, never the walking or
    the stopped one. *)
Theorem boarding_label (c : Closure) (s : HookState) (r : Reading) :
  isOnTrain s = false →
  isOnTrain (fst (successCallback c s r)) = true →
  let shown := Display.trainStatus_speed (fst (successCallback c s r)) in
  if isDevelopment c then
    Display.getMovementStatus shown = Display.TrainMoving ∧
    Display.getSpeedColor shown = Display.Success
  else
    Display.getMovementStatus shown = Display.TrainMoving ∨
    Display.getMovementStatus shown = Display.VehicleMoving.
Proof.
  intros Hoff Hon. cbn zeta.
  pose proof (boarding_needs_detection c s r Hoff Hon) as Hdet.
  destruct (successCallback_refs c s r) as (Hspeed & _).
  unfold Display.trainStatus_speed. rewrite Hspeed.
  destruct (isDevelopment c) eqn:Hdev.
  - apply (isTrainDetected_development c s r Hdev) in Hdet.
    destruct Hdet as (_ & Hge & _).
    pose proof (Math_round_ge (calculatedSpeed s r) 30 Hge) as H30.
    unfold Display.getMovementStatus, Display.getSpeedColor.
    change (JS.Fin 30) with (JS.Fin (inject_Z 30)). rewrite H30. auto.
  - apply (isTrainDetected_production c s r Hdev) in Hdet.
    destruct Hdet as (Hgt & _).
    pose proof (gt_ge (calculatedSpeed s r) 20 (inject_Z 15)
                  ltac:(discriminate) Hgt) as H15.
    apply Math_round_ge in H15.
    unfold Display.getMovementStatus.
    destruct (JS.ge (Display.Math_round (calculatedSpeed s r)) (JS.Fin 30));
      [left; reflexivity|].
    change (JS.Fin 15) with (JS.Fin (inject_Z 15)). rewrite H15.
    right. reflexivity.
Qed.

Lemma boarding_label_witness :
  Display.getMovementStatus
    (Display.trainStatus_speed
       (fst (successCallback Scenario.development Scenario.after_first_fix
               (Scenario.sample 2 (100 # 3)))))
  = Display.TrainMoving ∧
  Display.getSpeedColor
    (Display.trainStatus_speed
       (fst (successCallback Scenario.development Scenario.after_first_fix
               (Scenario.sample 2 (100 # 3)))))
  = Display.Success.
Proof.
  apply (boarding_label Scenario.development Scenario.after_first_fix
           (Scenario.sample 2 (100 # 3))); reflexivity.
Defined.

(** The label and the colour are decided by the same thresholds: the
    success colour goes with the train label, orange with the vehicle label,
    the secondary colour with the walking and stopped labels; an undefined
    speed ([NaN]) is shown as stopped, and the label never moves down when
    the speed goes up. *)
Theorem label_and_colour_agree (v : JS.number) :
  (Display.getSpeedColor v = Display.Success ↔
   Display.getMovementStatus v = Display.TrainMoving) ∧
  (Display.getSpeedColor v = Display.Orange ↔
   Display.getMovementStatus v = Display.VehicleMoving) ∧
  (Display.getSpeedColor v = Display.Secondary ↔
   Display.getMovementStatus v = Display.WalkingMoving ∨
   Display.getMovementStatus v = Display.Stopped) ∧
  Display.getMovementStatus (Display.Math_round JS.NaN) = Display.Stopped ∧
  (Display.getMovementStatus v = Display.Stopped ↔
   JS.ge v (JS.Fin 5) = false).
Proof.
  unfold Display.getSpeedColor, Display.getMovementStatus.
  destruct (JS.ge v (JS.Fin 30)) eqn:E30.
  - pose proof (ge_weaken v 30 5 ltac:(discriminate) E30) as E5.
    rewrite E5. repeat split; try congruence; try (intros [H|H]; congruence).
  - destruct (JS.ge v (JS.Fin 15)) eqn:E15.
    + pose proof (ge_weaken v 15 5 ltac:(discriminate) E15) as E5.
      rewrite E5.
      repeat split; try congruence; try (intros [H|H]; congruence).
    + destruct (JS.ge v (JS.Fin 5)) eqn:E5;
        repeat split; try congruence; try (intros [H|H]; congruence); auto.
Qed.

(** The detection screen joins only the room derived from the detected
    line: a join goes out only with the socket connected, a non-empty line
    and a non-empty nickname, its room id is ["train_"] followed by the line,
    and two lines give the same room id exactly when they are the same
    line. *)
Theorem connectToChat_joins_line_room (socket_connected : bool)
    (st : ScreenState) :
  (∀ roomId line nick,
      JoinRoom roomId line nick ∈ snd (connectToChat socket_connected st) →
      socket_connected = true ∧
      currentLine (hook st) = Some line ∧ line ≠ "" ∧
      nick = nickname st ∧ nick ≠ "" ∧
      roomId = Display.baseRoomId line ∧
      replaced (fst (connectToChat socket_connected st)) = true) ∧
  (∀ line1 line2,
      Display.baseRoomId line1 = Display.baseRoomId line2 ↔ line1 = line2).
Proof.
  split.
  - intros roomId line nick. unfold connectToChat.
    destruct (currentLine (hook st)) as [l|];
      [|intros H; apply elem_of_nil in H; contradiction].
    destruct (String.eqb l "") eqn:El; cbn [orb].
    { intros H. apply elem_of_nil in H. contradiction. }
    destruct (String.eqb (nickname st) "") eqn:En.
    { intros H. apply elem_of_nil in H. contradiction. }
    apply String.eqb_neq in El, En.
    destruct socket_connected; cbn; intros H;
      apply list_elem_of_singleton in H; [|discriminate].
    injection H as -> -> ->. repeat split; auto.
  - intros line1 line2. unfold Display.baseRoomId. split.
    + intros H. simpl in H. injection H as H. exact H.
    + intros ->. reflexivity.
Qed.

(** ** The hook [useLocation] *)

(** One run of the effect from the initial state ends with a location
    exactly when the hook is enabled, the permission is granted, the position
    arrives and the component is still mounted; then no error is set and a
    missing accuracy reads 0. A run never clears a location that was already
    set, so after a failed or denied run the old location and the new error
    stand side by side. Loading ends whenever the component is still mounted,
    the hook is disabled, or the permission is denied. *)
Theorem useLocation_effect (enabled : bool)
    (permission : UseLocation.Awaited bool)
    (position : UseLocation.Awaited UseLocation.Position) (mounted : bool)
    (st : UseLocation.t) :
  let first :=
    UseLocation.effect enabled permission position mounted
      UseLocation.initial in
  let next := UseLocation.effect enabled permission position mounted st in
  (∀ data, UseLocation.location first = Some data ↔
     enabled = true ∧ permission = UseLocation.Resolves true ∧ mounted = true ∧
     ∃ p, position = UseLocation.Resolves p ∧
          data = UseLocation.mkLocationData
                   (UseLocation.coords_latitude p)
                   (UseLocation.coords_longitude p)
                   (default 0%Q (UseLocation.coords_accuracy p))
                   (UseLocation.position_timestamp p)) ∧
  (UseLocation.location first ≠ None → UseLocation.error first = None) ∧
  (UseLocation.location st ≠ None → UseLocation.location next ≠ None) ∧
  (enabled = true → permission = UseLocation.Resolves false →
   UseLocation.location next = UseLocation.location st ∧
   UseLocation.error next ≠ None) ∧
  (mounted = true ∨ enabled = false
   ∨ permission = UseLocation.Resolves false →
   UseLocation.loading next = false).
Proof.
  cbn zeta. unfold UseLocation.effect.
  split; [|split; [|split; [|split]]].
  - intros data.
    destruct enabled, permission as [[|]|], position as [p|], mounted; cbn;
      (split;
       [ intros H; try discriminate H; injection H as <-;
         repeat split; eexists; split; reflexivity
       | intros (H1 & H2 & H3 & q & H4 & H5);
         try discriminate; injection H4 as <-; subst data; reflexivity ]).
  - destruct enabled, permission as [[|]|], position as [p|], mounted; cbn;
      congruence.
  - destruct enabled, permission as [[|]|], position as [p|], mounted; cbn;
      congruence.
  - intros -> ->. cbn. split; [reflexivity|discriminate].
  - intros H.
    destruct enabled, permission as [[|]|], position as [p|], mounted; cbn;
      try reflexivity; destruct H as [H|[H|H]]; discriminate.
Qed.

(** ** The geolocation mock's watch registry *)

Lemma filter_index_delete {A : Type} (k offset : nat) (l : list A) :
  Mock.filter_index
    (fun index => negb (Z.of_nat index =? Z.of_nat (S (k + offset)) - 1)%Z)
    offset l
  = delete k l.
Proof.
  revert k offset. induction l as [|x rest IH]; intros k offset.
  - destruct k; reflexivity.
  - cbn [Mock.filter_index]. destruct k as [|k].
    + assert (E : (Z.of_nat offset =? Z.of_nat (S (0 + offset)) - 1)%Z = true)
        by (apply Z.eqb_eq; lia).
      rewrite E. cbn [negb delete].
      assert (Hkeep : ∀ (l' : list A) (from : nat), (offset < from)%nat →
                Mock.filter_index
                  (fun index =>
                     negb (Z.of_nat index =? Z.of_nat (S (0 + offset)) - 1)%Z)
                  from l' = l').
      { induction l' as [|y l' IHl']; intros from Hfrom; [reflexivity|].
        cbn [Mock.filter_index].
        assert (E' : (Z.of_nat from =? Z.of_nat (S (0 + offset)) - 1)%Z = false)
          by (apply Z.eqb_neq; lia).
        rewrite E'. cbn [negb]. rewrite IHl' by lia. reflexivity. }
      apply Hkeep. lia.
    + assert (E : (Z.of_nat offset =? Z.of_nat (S (S k + offset)) - 1)%Z
                  = false) by (apply Z.eqb_neq; lia).
      rewrite E. cbn [negb]. change (delete (S k) (x :: rest)) with
        (x :: delete k rest). f_equal.
      replace (S k + offset)%nat with (k + S offset)%nat by lia.
      apply IH.
Qed.

Lemma watch_all_registry (callbacks : list nat) (st : Mock.t) :
  Mock.watch_all callbacks st
  = {| Mock.watchCallbacks := (Mock.watchCallbacks st ++ callbacks)%list;
       Mock.watchId := (Mock.watchId st + length callbacks)%nat |}.
Proof.
  unfold Mock.watch_all. revert st.
  induction callbacks as [|c rest IH]; intros st; cbn [fold_left].
  - destruct st. cbn. rewrite app_nil_r, Nat.add_0_r. reflexivity.
  - rewrite IH. cbn. rewrite <- app_assoc. cbn. f_equal. lia.
Qed.

Lemma delete_twice_lookup {A : Type} (j k i : nat) (l : list A) :
  (j < k)%nat →
  delete k (delete j l) !! i
  = l !! (if (i <? j)%nat then i
          else if (i <? k)%nat then S i else S (S i)).
Proof.
  intros Hjk. destruct (i <? j)%nat eqn:Ej.
  - apply Nat.ltb_lt in Ej.
    rewrite list_lookup_delete_lt by lia. apply list_lookup_delete_lt. exact Ej.
  - apply Nat.ltb_ge in Ej. destruct (i <? k)%nat eqn:Ek.
    + apply Nat.ltb_lt in Ek.
      rewrite list_lookup_delete_lt by lia. apply list_lookup_delete_ge. exact Ej.
    + apply Nat.ltb_ge in Ek.
      rewrite list_lookup_delete_ge by lia. apply list_lookup_delete_ge. lia.
Qed.

(** [mockClearWatch] removes by position, not by watch: it drops the
    callback at index [watchId - 1] of the current list (nothing for id 0).
    After the watches [1..n] were registered in that order, clearing watch [j]
    removes its callback; but clearing a later watch [k] afterwards leaves the
    callback of watch [k] registered and removes the callback of watch
    [k + 1] instead, if there is one. *)
Theorem mockClearWatch_by_position (callbacks : list nat) (j k : nat) :
  let st := Mock.watch_all callbacks Mock.initial in
  Mock.mockClearWatch 0 st = st ∧
  Mock.watchCallbacks st = callbacks ∧
  Mock.watchCallbacks (Mock.mockClearWatch (S j) st) = delete j callbacks ∧
  (NoDup callbacks → (j < k)%nat →
   (∀ c, callbacks !! j = Some c →
         c ∉ Mock.watchCallbacks (Mock.mockClearWatch (S j) st)) ∧
   (∀ c, callbacks !! k = Some c →
         c ∈ Mock.watchCallbacks
               (Mock.mockClearWatch (S k) (Mock.mockClearWatch (S j) st))) ∧
   (∀ c, callbacks !! S k = Some c →
         c ∉ Mock.watchCallbacks
               (Mock.mockClearWatch (S k) (Mock.mockClearWatch (S j) st)))).
Proof.
  cbn zeta. rewrite watch_all_registry. cbn [Mock.initial Mock.watchCallbacks
    Mock.watchId app].
  assert (Hclear : ∀ n l id,
            Mock.watchCallbacks
              (Mock.mockClearWatch (S n) (Mock.mk l id)) = delete n l).
  { intros n l id. unfold Mock.mockClearWatch. cbn [Mock.watchCallbacks].
    rewrite <- (filter_index_delete n 0 l).
    replace (n + 0)%nat with n by lia. reflexivity. }
  split; [|split; [reflexivity|split; [apply Hclear|]]].
  - unfold Mock.mockClearWatch. cbn [Mock.watchCallbacks Mock.watchId].
    f_equal.
    assert (Hkeep : ∀ (l : list nat) (from : nat),
              Mock.filter_index
                (fun index => negb (Z.of_nat index =? Z.of_nat 0 - 1)%Z)
                from l = l).
    { induction l as [|y l IHl]; intros from; [reflexivity|].
      cbn [Mock.filter_index].
      assert (E : (Z.of_nat from =? Z.of_nat 0 - 1)%Z = false)
        by (apply Z.eqb_neq; lia).
      rewrite E. cbn [negb]. rewrite IHl. reflexivity. }
    apply Hkeep.
  - intros Hnodup Hjk.
    assert (Htwice :
      Mock.watchCallbacks
        (Mock.mockClearWatch (S k)
           (Mock.mockClearWatch (S j)
              (Mock.mk callbacks (0 + length callbacks))))
      = delete k (delete j callbacks)).
    { unfold Mock.mockClearWatch at 2. cbn [Mock.watchCallbacks Mock.watchId].
      rewrite Hclear.
      rewrite <- (filter_index_delete j 0 callbacks).
      replace (j + 0)%nat with j by lia. reflexivity. }
    split; [|split].
    + intros c Hc. rewrite Hclear. intros Hin.
      apply list_elem_of_lookup in Hin. destruct Hin as [i Hi].
      destruct (decide (i < j)%nat) as [Hlt|Hge].
      * rewrite list_lookup_delete_lt in Hi by exact Hlt.
        pose proof (NoDup_lookup _ _ _ _ Hnodup Hi Hc). lia.
      * rewrite list_lookup_delete_ge in Hi by lia.
        pose proof (NoDup_lookup _ _ _ _ Hnodup Hi Hc). lia.
    + intros c Hc. rewrite Htwice. apply list_elem_of_lookup.
      exists (k - 1)%nat. rewrite (delete_twice_lookup j k _ _ Hjk).
      destruct (k - 1 <? j)%nat eqn:E1; [apply Nat.ltb_lt in E1; lia|].
      destruct (k - 1 <? k)%nat eqn:E2; [|apply Nat.ltb_ge in E2; lia].
      replace (S (k - 1)) with k by lia. exact Hc.
    + intros c Hc. rewrite Htwice. intros Hin.
      apply list_elem_of_lookup in Hin. destruct Hin as [i Hi].
      rewrite (delete_twice_lookup j k _ _ Hjk) in Hi.
      pose proof (NoDup_lookup _ _ _ _ Hnodup Hi Hc) as Heq.
      destruct (i <? j)%nat eqn:E1;
        [apply Nat.ltb_lt in E1; lia|apply Nat.ltb_ge in E1].
      destruct (i <? k)%nat eqn:E2;
        [apply Nat.ltb_lt in E2; lia|apply Nat.ltb_ge in E2; lia].
Qed.

(** ** The first fix *)

(** Without a previous fix the speed is taken from the position: 0 when it
    reports no speed or a speed of 0, otherwise 3.6 times the reported value,
    capped at 100 km/h; so the first fix never shows more than 100 km/h. *)
Theorem first_fix_speed_capped (s : HookState) (r : Reading) :
  hasPrevious s = false →
  JS.le (calculatedSpeed s r) (JS.Fin 100) = true ∧
  (coords_speed r = None → calculatedSpeed s r = JS.Fin 0) ∧
  (∀ v, coords_speed r = Some v →
        ((v == 0)%Q → calculatedSpeed s r = JS.Fin 0) ∧
        (¬ (v == 0)%Q → (v * (36 # 10) <= 100)%Q →
         calculatedSpeed s r = JS.Fin (v * (36 # 10))) ∧
        ((100 < v * (36 # 10))%Q → calculatedSpeed s r = JS.Fin 100)).
Proof.
  intros Hnone. unfold calculatedSpeed. rewrite Hnone.
  destruct (coords_speed r) as [v|]; [|repeat split; congruence].
  unfold JS.truthy, JS.mul_pos, JS.min_fin.
  destruct (Qeq_bool v 0) eqn:E0; cbn [negb].
  - apply Qeq_bool_iff in E0. split; [reflexivity|]. split; [discriminate|].
    intros w [= <-]. split; [reflexivity|]. split.
    + intros H. contradiction.
    + intros H. exfalso. rewrite E0 in H. discriminate H.
  - assert (Hv : ¬ (v == 0)%Q).
    { intros H. apply Qeq_bool_iff in H. congruence. }
    destruct (Qle_bool (v * (36 # 10)) 100) eqn:E100.
    + pose proof E100 as Hle. apply Qle_bool_iff in Hle.
      split; [exact E100|]. split; [discriminate|].
      intros w [= <-]. split; [intros H; contradiction|].
      split; [reflexivity|]. intros H. exfalso.
      apply (Qlt_not_le _ _ H Hle).
    + split; [reflexivity|]. split; [discriminate|].
      intros w [= <-]. split; [intros H; contradiction|].
      split; [|reflexivity]. intros _ Hle. apply Qle_bool_iff in Hle.
      congruence.
Qed.

Lemma first_fix_speed_capped_witness :
  JS.le (calculatedSpeed (initialState Scenario.mountTime)
           Scenario.far_first_fix) (JS.Fin 100) = true.
Proof.
  apply (first_fix_speed_capped (initialState Scenario.mountTime)
           Scenario.far_first_fix). reflexivity.
Defined.

Lemma mockClearWatch_by_position_witness :
  let st := Mock.watch_all [10; 20; 30; 40]%nat Mock.initial in
  20%nat ∈ Mock.watchCallbacks
             (Mock.mockClearWatch 2 (Mock.mockClearWatch 1 st)) ∧
  30%nat ∉ Mock.watchCallbacks
             (Mock.mockClearWatch 2 (Mock.mockClearWatch 1 st)).
Proof.
  destruct (mockClearWatch_by_position [10; 20; 30; 40]%nat 0 1)
    as (_ & _ & _ & Hlater).
  assert (Hnodup : NoDup [10; 20; 30; 40]%nat).
  { repeat (apply NoDup_cons; split;
            [intros Hin;
             repeat (apply elem_of_cons in Hin; destruct Hin as [Hin|Hin];
                     [discriminate|]);
             apply elem_of_nil in Hin; exact Hin|]).
    apply NoDup_nil. exact I. }
  destruct (Hlater Hnodup ltac:(lia)) as (_ & Hkept & Hgone).
  split; [apply Hkept; reflexivity|apply Hgone; reflexivity].
Defined.

Lemma sendMessage_local_echo_witness :
  let st := {| ChatScreen.messages := [];
               ChatScreen.inputText := [32; 104; 105; 32]%N;
               ChatScreen.isConnected := true;
               ChatScreen.onlineUsers := [] |} in
  snd (ChatScreen.sendMessage "demo-room" "taro" 1700000000000
         "1700000000000" st SocketManager.initial)
  = SocketManager.Throw "Socket not connected".
Proof.
  cbn zeta.
  match goal with
  | |- snd (ChatScreen.sendMessage ?roomId ?nick ?now ?id ?st ?m) = _ =>
      destruct (sendMessage_local_echo roomId nick now id st m)
        as (_ & Hsend & _)
  end.
  destruct (Hsend ltac:(discriminate) eq_refl) as (_ & _ & _ & Hthrow).
  apply Hthrow. reflexivity.
Defined.
